(** * Verification of the quote scraper (scraper.py, run.py)

    A shallow embedding of the [Scraper] class and of the entry point
    [main], followed by the properties of the extraction step, of the
    output store, of the scrape loop and of the start-up checks. *)

From Stdlib Require Import ZArith String Ascii List Lia.
From stdpp Require Import base option list gmap.
Import ListNotations.

Local Open Scope Z_scope.
Local Open Scope list_scope.

(** ** Python strings

    A Python [str] is a sequence of Unicode code points; a character is
    kept as its code point.  [py] turns an ASCII literal of the source into
    such a string. *)

Module PyStr.

Definition pystr : Type := list N.

Definition py (s : string) : pystr :=
  map N_of_ascii (list_ascii_of_string s).

Arguments py : simpl never.

(** Index normalisation of a slice bound: a negative bound counts from the
    end, and bounds outside the string are clipped. *)
Definition clamp (len i : Z) : Z :=
  if i <? 0 then Z.max 0 (i + len) else Z.min i len.

(** [s[start:stop]] *)
Definition slice {A} (s : list A) (start stop : Z) : list A :=
  let len := Z.of_nat (length s) in
  let lo := clamp len start in
  let hi := clamp len stop in
  take (Z.to_nat (hi - lo)) (drop (Z.to_nat lo) s).

(** [s.split(sep)] for a one-character separator: every occurrence splits,
    and the result is never empty. *)
Fixpoint split (sep : N) (s : pystr) : list pystr :=
  match s with
  | [] => [[]]
  | c :: s' =>
      if N.eqb c sep then [] :: split sep s'
      else match split sep s' with
           | h :: t => (c :: h) :: t
           | [] => [[c]]
           end
  end.

(** [sep.join(parts)] *)
Fixpoint join (sep : pystr) (parts : list pystr) : pystr :=
  match parts with
  | [] => []
  | [p] => p
  | p :: rest => p ++ sep ++ join sep rest
  end.

(** Truth value of an optional string: [None] and [''] are false. *)
Definition truthy (v : option pystr) : bool :=
  match v with
  | Some (_ :: _) => true
  | _ => false
  end.

(** [str(v)] inside an f-string, for a value that may be [None]. *)
Definition fmt (v : option pystr) : pystr :=
  match v with
  | Some s => s
  | None => py "None"
  end.

End PyStr.
Export PyStr.

(** ** The parsed page

    [BeautifulSoup(page_content, 'html.parser')] yields a tree of tags and
    strings.  The parser itself is a library; the tree it returns is the
    input of the extraction step. *)

Module Soup.

#[warnings="-register-all"] Inductive node : Type :=
| NavigableString (s : pystr)
| Tag (name : pystr) (classes : list pystr) (contents : list node).

(** The document object: a tag that holds the top-level nodes. *)
Definition BeautifulSoup (page_content : list node) : node :=
  Tag (py "[document]") [] page_content.

(** A node followed by everything below it, in document order. *)
Fixpoint subtree (n : node) : list node :=
  n :: match n with
       | NavigableString _ => []
       | Tag _ _ cs => flat_map subtree cs
       end.

(** [tag.descendants] *)
Definition descendants (n : node) : list node :=
  match n with
  | NavigableString _ => []
  | Tag _ _ cs => flat_map subtree cs
  end.

(** Does a node match [find_all(name, class_=cls)]? *)
Definition matches (name cls : pystr) (n : node) : bool :=
  match n with
  | NavigableString _ => false
  | Tag nm cl _ => bool_decide (nm = name) && bool_decide (cls ∈ cl)
  end.

(** [tag.find_all(name, class_=cls)]: the matching descendants, in
    document order. *)
Definition find_all (name cls : pystr) (n : node) : list node :=
  List.filter (matches name cls) (descendants n).

(** [tag.find(name, class_=cls)]: the first match, or [None]. *)
Definition find (name cls : pystr) (n : node) : option node :=
  head (find_all name cls n).

(** [node.text]: the strings below the node, concatenated. *)
Fixpoint text (n : node) : pystr :=
  match n with
  | NavigableString s => s
  | Tag _ _ cs => flat_map text cs
  end.

End Soup.
Export Soup.

(** ** Exceptions and results *)

Inductive exn : Type :=
| AttributeError            (* an attribute of [None] was read *)
| ValueError                (* a tuple unpacking of the wrong length *)
| TypeError
| TimeoutError              (* Playwright's wait ran out of time *)
| PlaywrightError (msg : pystr).

(** What a call can end in: a value, a raised exception, or (for the
    unbounded loop only) no answer within the given number of turns. *)
Inductive res (A : Type) : Type :=
| Val (a : A)
| Exn (e : exn)
| Fuel.
Arguments Val {A} a.
Arguments Exn {A} e.
Arguments Fuel {A}.

(** ** Records and the output store *)

(** The values held by the dictionary that is written for a quote. *)
Inductive pyval : Type :=
| VStr (s : pystr)
| VList (l : list pystr).

(** A dictionary literal keeps the order of its keys. *)
Definition pydict : Type := list (pystr * pyval).

Definition dict_get (d : pydict) (k : pystr) : option pyval :=
  snd <$> List.find (fun kv => bool_decide (kv.1 = k)) d.

(** A file of JSON lines: one object per line, oldest first. *)
Definition jsonl : Type := list pydict.

(** ** Extraction of one page (Scraper.process_page) *)

Module PageExtract.

(** [x.text] where [x] is the result of a [find]: reading [.text] of [None]
    raises. *)
Definition text_of (x : option node) : exn + pystr :=
  match x with
  | Some n => inr (text n)
  | None => inl AttributeError
  end.

(** [x.find_all('a', class_='tag')] where [x] is the result of a [find]. *)
Definition find_all_of (name cls : pystr) (x : option node) : exn + list node :=
  match x with
  | Some n => inr (find_all name cls n)
  | None => inl AttributeError
  end.

(** The body of the [for] loop up to the dictionary handed to the writer:
    the three fields are computed in this order, and the first lookup that
    fails raises. *)
Definition quote_dict (quote : node) : exn + pydict :=
  match text_of (find (py "span") (py "text") quote) with
  | inl e => inl e
  | inr t =>
      let text := slice t 1 (-1) in
      match text_of (find (py "small") (py "author") quote) with
      | inl e => inl e
      | inr author =>
          match find_all_of (py "a") (py "tag") (find (py "div") (py "tags") quote) with
          | inl e => inl e
          | inr tag_nodes =>
              let tags := map Soup.text tag_nodes in
              inr [(py "text", VStr text); (py "by", VStr author); (py "tags", VList tags)]
          end
      end
  end.

(** The [for] loop inside the [with] block.  [lines] is the content of
    the file so far; each [writer.write] adds one line at its end, and an
    exception leaves the loop with the lines written so far (the [with]
    block closes the file on the way out). *)
Fixpoint write_quotes (quotes : list node) (lines : jsonl) : jsonl * res unit :=
  match quotes with
  | [] => (lines, Val tt)
  | quote :: rest =>
      match quote_dict quote with
      | inl e => (lines, Exn e)
      | inr d => write_quotes rest (lines ++ [d])
      end
  end.

(** The record containers of a page, in document order. *)
Definition quotes_of (page_content : list node) : list node :=
  find_all (py "div") (py "quote") (BeautifulSoup page_content).

(** [process_page] on the content of the page and the content of the
    output file. *)
Definition process_content (page_content : list node) (lines : jsonl) : jsonl * res unit :=
  write_quotes (quotes_of page_content) lines.

End PageExtract.
Export PageExtract.

(** ** The browser

    The Playwright calls the scraper makes.  [B] is the state of the
    browser as seen through the one page, [H] an element handle.  Each call
    that can raise returns the exception or the state after the call.
    [new_page] stands for [new_context(user_agent=..)] followed by
    [new_page()]. *)

Record proxy_settings : Type := ProxySettings {
  ps_server : pystr;
  ps_username : option pystr;
  ps_password : option pystr
}.

Class Playwright (B H : Type) : Type := {
  launch : option proxy_settings -> exn + B;
  new_page : B -> pystr -> exn + B;
  goto : B -> pystr -> exn + B;
  wait_for_selector : B -> pystr -> Z -> exn + (B * H);
  content : B -> exn + list node;
  click : B -> H -> exn + B;
  url : B -> pystr
}.

(** What the scraper does to the outside, oldest first in a trace. *)
Inductive event : Type :=
| CallProcessProxy
| CallLaunch (browser_args : option proxy_settings)
| CallNewPage (user_agent : pystr)
| CallGoto (target : pystr)
| CallWaitForSelector (selector : pystr) (timeout : Z)
| CallContent
| CallClick
| CallStopPlaywright
| CallBrowserClose
| CallPlaywrightStop.

#[global] Instance proxy_settings_eq_dec : EqDecision proxy_settings.
Proof. solve_decision. Defined.

#[global] Instance event_eq_dec : EqDecision event.
Proof. solve_decision. Defined.

(** Everything outside the scraper object: the files, what was printed,
    the trace of calls and the draw of the random generator. *)
Record world : Type := World {
  files : gmap pystr jsonl;
  stdout : list pystr;
  trace : list event;
  rand : nat
}.

(** The lines of a file; a file that does not exist has none, and opening
    it for appending creates it. *)
Definition read_lines (fs : gmap pystr jsonl) (path : pystr) : jsonl :=
  default [] (fs !! path).

Section ScraperClass.

Context {B H : Type} `{!Playwright B H}.

(** The attributes of a [Scraper].  [browser] and [playwright] tell
    whether the attribute holds an object; [page] holds the page. *)
Record Scraper : Type := MkScraper {
  input_url : pystr;
  output_file : pystr;
  proxy_url : option pystr;
  server : option pystr;
  port : option pystr;
  username : option pystr;
  password : option pystr;
  browser : bool;
  page : option B;
  playwright : bool
}.

Definition USER_AGENTS : list pystr :=
  [ py "Mozilla/5.0 (Windows NT 10.0; Win64; x64) AppleWebKit/537.36 (KHTML, like Gecko) Chrome/58.0.3029.110 Safari/537.3";
    py "Mozilla/5.0 (Windows NT 10.0; Win64; x64) AppleWebKit/537.36 (KHTML, like Gecko) Chrome/60.0.3112.113 Safari/537.36";
    py "Mozilla/5.0 (Windows NT 6.1; Win64; x64) AppleWebKit/537.36 (KHTML, like Gecko) Chrome/60.0.3112.90 Safari/537.36" ].

(** [Scraper(input_url, output_file, proxy_url=None)] *)
Definition Scraper_init (input_url output_file : pystr) (proxy_url : option pystr) : Scraper :=
  {| input_url := input_url; output_file := output_file; proxy_url := proxy_url;
     server := None; port := None; username := None; password := None;
     browser := false; page := None; playwright := false |}.

Definition set_input_url (u : pystr) (s : Scraper) : Scraper :=
  MkScraper u (output_file s) (proxy_url s) (server s) (port s) (username s)
            (password s) (browser s) (page s) (playwright s).
Definition set_credentials (u p : pystr) (s : Scraper) : Scraper :=
  MkScraper (input_url s) (output_file s) (proxy_url s) (server s) (port s) (Some u)
            (Some p) (browser s) (page s) (playwright s).
Definition set_endpoint (h p : pystr) (s : Scraper) : Scraper :=
  MkScraper (input_url s) (output_file s) (proxy_url s) (Some h) (Some p) (username s)
            (password s) (browser s) (page s) (playwright s).
Definition set_browser (b : bool) (s : Scraper) : Scraper :=
  MkScraper (input_url s) (output_file s) (proxy_url s) (server s) (port s) (username s)
            (password s) b (page s) (playwright s).
Definition set_page (p : option B) (s : Scraper) : Scraper :=
  MkScraper (input_url s) (output_file s) (proxy_url s) (server s) (port s) (username s)
            (password s) (browser s) p (playwright s).
Definition set_playwright (b : bool) (s : Scraper) : Scraper :=
  MkScraper (input_url s) (output_file s) (proxy_url s) (server s) (port s) (username s)
            (password s) (browser s) (page s) b.

(** *** Methods as state transformers

    A method runs on the scraper object and the world and ends in a
    result. *)

Definition state : Type := Scraper * world.
Definition M (A : Type) : Type := state -> state * res A.

#[global] Instance M_ret : MRet M := fun A a st => (st, Val a).
#[global] Instance M_bind : MBind M := fun A C k m st =>
  match m st with
  | (st', Val a) => k a st'
  | (st', Exn e) => (st', Exn e)
  | (st', Fuel) => (st', Fuel)
  end.

Definition raise {A} (e : exn) : M A := fun st => (st, Exn e).
Definition get_self : M Scraper := fun st => (st, Val st.1).
Definition modify_self (f : Scraper -> Scraper) : M unit :=
  fun st => ((f st.1, st.2), Val tt).

Definition log (ev : event) : M unit := fun st =>
  ((st.1, World (files st.2) (stdout st.2) (trace st.2 ++ [ev]) (rand st.2)), Val tt).
Definition print (line : pystr) : M unit := fun st =>
  ((st.1, World (files st.2) (stdout st.2 ++ [line]) (trace st.2) (rand st.2)), Val tt).

(** [random.choice(l)] *)
Definition random_choice (l : list pystr) : M pystr := fun st =>
  (st, Val (nth (rand st.2 mod length l)%nat l [])).

(** A call into Playwright: it is recorded, then its exception is raised or
    its result returned. *)
Definition call {A} (ev : event) (r : exn + A) : M A :=
  log ev ;;
  match r with
  | inl e => raise e
  | inr a => mret a
  end.

(** [self.page], on which a method is about to be called. *)
Definition the_page : M B :=
  s ← get_self;
  match page s with
  | Some b => mret b
  | None => raise AttributeError
  end.

Definition handle_captcha : M unit := mret tt.
Definition handle_cookies : M unit := mret tt.

Definition start_playwright : M unit :=
  modify_self (set_playwright true) ;;
  s ← get_self;
  let browser_args :=
    if truthy (proxy_url s)
    then Some {| ps_server := fmt (server s) ++ py ":" ++ fmt (port s);
                 ps_username := username s;
                 ps_password := password s |}
    else None in
  b ← call (CallLaunch browser_args) (launch browser_args);
  modify_self (set_browser true) ;;
  user_agent ← random_choice USER_AGENTS;
  b' ← call (CallNewPage user_agent) (new_page b user_agent);
  modify_self (set_page (Some b')) ;;
  handle_captcha ;;
  handle_cookies.

Definition stop_playwright : M unit :=
  log CallStopPlaywright ;;
  s ← get_self;
  (if browser s then log CallBrowserClose else mret tt) ;;
  (if playwright s then log CallPlaywrightStop else mret tt).

Definition process_proxy : M unit :=
  log CallProcessProxy ;;
  s ← get_self;
  match proxy_url s with
  | None => raise AttributeError
  | Some u =>
      match split 64%N u with
      | [username_password; server_port] =>
          match split 58%N username_password with
          | [usr; pwd] =>
              modify_self (set_credentials usr pwd) ;;
              match split 58%N server_port with
              | [srv; prt] => modify_self (set_endpoint srv prt)
              | _ => raise ValueError
              end
          | _ => raise ValueError
          end
      | _ => raise ValueError
      end
  end.

(** [with jsonlines.open(self.output_file, mode='a')]: the lines already
    in the file stay, the loop adds to them, and the file is closed with
    what was written whether the loop ended or raised. *)
Definition append_to (path : pystr) (body : jsonl -> jsonl * res unit) : M unit :=
  fun st =>
    let (lines, r) := body (read_lines (files st.2) path) in
    ((st.1, World (<[path := lines]> (files st.2)) (stdout st.2) (trace st.2) (rand st.2)), r).

Definition process_page : M unit :=
  b ← the_page;
  page_content ← call CallContent (content b);
  s ← get_self;
  append_to (output_file s) (write_quotes (quotes_of page_content)).

Definition wait_for_quotes (timeout : Z) : M unit :=
  b ← the_page;
  '(b', _) ← call (CallWaitForSelector (py "div.quote") timeout)
                  (wait_for_selector b (py "div.quote") timeout);
  modify_self (set_page (Some b')).

(** The [try]/[except TimeoutError]/[else] block that ends a turn of the
    loop: [true] when the loop goes on, [false] at [break].  Only a
    [TimeoutError] of the wait is caught; the [else] branch runs outside
    the [try]. *)
Definition paginate : M bool :=
  b ← the_page;
  log (CallWaitForSelector (py "li.next a") 1000) ;;
  match wait_for_selector b (py "li.next a") 1000 with
  | inl TimeoutError => mret false
  | inl e => raise e
  | inr (b', next_button) =>
      modify_self (set_page (Some b')) ;;
      b'' ← call CallClick (click b' next_button);
      modify_self (set_page (Some b'')) ;;
      modify_self (set_input_url (url b'')) ;;
      mret true
  end.

(** The first three steps of a turn: navigate, wait for the record
    containers, extract. *)
Definition load_and_extract : M unit :=
  b ← the_page;
  s ← get_self;
  b' ← call (CallGoto (input_url s)) (goto b (input_url s));
  modify_self (set_page (Some b')) ;;
  print (py "Scraping:  " ++ input_url s) ;;
  wait_for_quotes 100000 ;;
  process_page.

(** One turn of [while True]. *)
Definition loop_body : M bool :=
  load_and_extract ;;
  paginate.

(** [while True: ...], for at most [fuel] turns. *)
Fixpoint scrape_loop (fuel : nat) : M unit :=
  match fuel with
  | O => fun st => (st, Fuel)
  | S fuel' =>
      continue ← loop_body;
      if continue : bool then scrape_loop fuel' else mret tt
  end.

Definition scrape (fuel : nat) : M unit :=
  s ← get_self;
  (if truthy (proxy_url s) then process_proxy else mret tt) ;;
  start_playwright ;;
  scrape_loop fuel ;;
  stop_playwright.

End ScraperClass.

(** ** The entry point (run.py) *)

Section EntryPoint.

Context {B H : Type} `{!Playwright B H}.

Definition env_vars : list pystr := [py "PROXY"; py "INPUT_URL"; py "OUTPUT_FILE"].

(** [load_dotenv()]: the variables of the [.env] file are added to the
    environment; a variable that is already set keeps its value. *)
Definition load_dotenv (dotenv environ : gmap pystr pystr) : gmap pystr pystr :=
  environ ∪ dotenv.

(** [{var: os.getenv(var) for var in env_vars}]; [None] is an unset
    variable. *)
Definition read_config (environ : gmap pystr pystr) : list (pystr * option pystr) :=
  map (fun var => (var, environ !! var)) env_vars.

Definition is_none {A} (v : option A) : bool :=
  match v with
  | None => true
  | Some _ => false
  end.

(** [config[key]] *)
Definition config_item (config : list (pystr * option pystr)) (key : pystr) : option pystr :=
  match List.find (fun kv => bool_decide (kv.1 = key)) config with
  | Some (_, v) => v
  | None => None
  end.

Definition print_to (line : pystr) (w : world) : world :=
  World (files w) (stdout w ++ [line]) (trace w) (rand w).

(** [main()].  Past the check for [None], the two values handed to the
    constructor are strings; the last branch stands for the case excluded
    by that check.  The [try]/[except] around the call of [main] at the
    bottom of the script, which prints an exception, is not part of
    [main] and is left out. *)
Definition main (fuel : nat) (dotenv environ : gmap pystr pystr) (w : world) : world * res unit :=
  let config := read_config (load_dotenv dotenv environ) in
  if existsb is_none (map snd config) then
    let missing_vars := map fst (List.filter (fun kv => is_none kv.2) config) in
    (print_to (py "Missing environment variables: " ++ join (py ", ") missing_vars) w, Val tt)
  else
    match config_item config (py "INPUT_URL"), config_item config (py "OUTPUT_FILE") with
    | Some input_url, Some output_file =>
        let scraper := Scraper_init input_url output_file None in
        let r := scrape fuel (scraper, w) in
        (r.1.2, r.2)
    | _, _ => (w, Exn TypeError)
    end.

End EntryPoint.

(** ** A browser over a fixed site

    A site is a table from addresses to pages; a page says whether its
    record containers ever render, what its content is and where its next
    link leads.  The state of this browser is the address it is at. *)

Module Site.

Record page_desc : Type := PageDesc {
  pd_renders : bool;
  pd_content : list node;
  pd_next : option pystr
}.

Definition site : Type := list (pystr * page_desc).

Definition lookup_page (s : site) (u : pystr) : option page_desc :=
  snd <$> List.find (fun kv => bool_decide (kv.1 = u)) s.

Definition site_wait (s : site) (b selector : pystr) : exn + (pystr * unit) :=
  match lookup_page s b with
  | None => inl TimeoutError
  | Some pd =>
      if bool_decide (selector = py "div.quote")
      then (if pd_renders pd then inr (b, tt) else inl TimeoutError)
      else match pd_next pd with
           | Some _ => inr (b, tt)
           | None => inl TimeoutError
           end
  end.

Definition site_click (s : site) (b : pystr) : exn + pystr :=
  match lookup_page s b with
  | Some pd =>
      match pd_next pd with
      | Some u => inr u
      | None => inl (PlaywrightError (py "element is not attached"))
      end
  | None => inl (PlaywrightError (py "element is not attached"))
  end.

Definition site_browser (s : site) : Playwright pystr unit :=
  {| launch := fun _ => inr (py "about:blank");
     new_page := fun b _ => inr b;
     goto := fun _ u =>
       match lookup_page s u with
       | Some _ => inr u
       | None => inl (PlaywrightError (py "net::ERR_NAME_NOT_RESOLVED"))
       end;
     wait_for_selector := fun b selector _ => site_wait s b selector;
     content := fun b =>
       match lookup_page s b with
       | Some pd => inr (pd_content pd)
       | None => inr []
       end;
     click := fun b _ => site_click s b;
     url := fun b => b |}.

(** A record container as the target site writes it. *)
Definition quote_div (text author : pystr) (tags : list pystr) : node :=
  Tag (py "div") [py "quote"]
    [ Tag (py "span") [py "text"] [NavigableString text];
      Tag (py "span") []
        [ NavigableString (py "by ");
          Tag (py "small") [py "author"] [NavigableString author] ];
      Tag (py "div") [py "tags"]
        (NavigableString (py "Tags: ")
         :: map (fun t => Tag (py "a") [py "tag"] [NavigableString t]) tags) ].

(** A string between the two quote glyphs U+201C and U+201D. *)
Definition quoted (s : pystr) : pystr := 8220%N :: s ++ [8221%N].

Definition page_a : page_desc :=
  PageDesc true
    [quote_div (quoted (py "It is our choices, Harry")) (py "Dumbledore") [py "courage"]]
    (Some (py "http://site/page/2/")).

Definition page_b : page_desc :=
  PageDesc true
    [quote_div (quoted (py "Hello world")) (py "Nobody") []]
    None.

(** A page on which no record container ever appears. *)
Definition page_blank : page_desc := PageDesc false [] None.

Definition two_pages : site :=
  [ (py "http://site/", page_a);
    (py "http://site/page/2/", page_b);
    (py "http://site/blank/", page_blank) ].

Definition empty_world : world := World ∅ [] [] 0.

#[global] Instance two_pages_browser : Playwright pystr unit := site_browser two_pages.

(** A scraper on this site, about to call [scrape]. *)
Definition fresh (input_url : pystr) : @state pystr :=
  (Scraper_init input_url (py "out.jsonl") None, empty_world).

(** The same scraper with its session started, about to enter the loop. *)
Definition started (input_url : pystr) : @state pystr :=
  (set_page (Some (py "about:blank")) (Scraper_init input_url (py "out.jsonl") None),
   empty_world).

(** An environment that sets the two addresses and no proxy. *)
Definition no_proxy_environ : gmap pystr pystr :=
  <[py "INPUT_URL" := py "http://site/"]> (<[py "OUTPUT_FILE" := py "out.jsonl"]> ∅).

End Site.

(** ** Vocabulary of the properties *)

(** A record container is well formed when it has the three sub-elements
    the extraction looks up. *)
Definition well_formed (quote : node) : bool :=
  bool_decide (is_Some (find (py "span") (py "text") quote))
  && bool_decide (is_Some (find (py "small") (py "author") quote))
  && bool_decide (is_Some (find (py "div") (py "tags") quote)).

(** The dictionary written for a quote with these three fields. *)
Definition record_of (text author : pystr) (tags : list pystr) : pydict :=
  [(py "text", VStr text); (py "by", VStr author); (py "tags", VList tags)].

(** How often teardown was invoked in a trace. *)
Definition teardowns (t : list event) : nat :=
  length (List.filter (fun ev => bool_decide (ev = CallStopPlaywright)) t).

(** A tag link as the target site writes it. *)
Definition tag_link (t : pystr) : node :=
  Tag (py "a") [py "tag"] [NavigableString t].

(** The records of those of the first [k] containers that have one. *)
Definition records_before (k : nat) (quotes : list node) : jsonl :=
  omap (fun q => match quote_dict q with
                 | inr d => Some d
                 | inl _ => None
                 end) (take k quotes).

(** The reading of the abort rule under which any container that lacks a
    sub-element, also one that comes after another such container, leaves
    the records of all well-formed containers before it in the file. *)
Definition every_earlier_record_persists : Prop :=
  forall (page_content : list node) (lines : jsonl) (k : nat) (quote : node),
    quotes_of page_content !! k = Some quote ->
    well_formed quote = false ->
    exists e,
      process_content page_content lines
      = (lines ++ records_before k (quotes_of page_content), Exn e).

(** The reading of the extraction property under which every record that
    is written has a non-empty text and a non-empty author. *)
Definition records_never_empty : Prop :=
  forall (page_content : list node) (lines : jsonl),
    Forall (fun q => well_formed q = true) (quotes_of page_content) ->
    exists recs,
      process_content page_content lines = (lines ++ recs, Val tt) /\
      length recs = length (quotes_of page_content) /\
      Forall (fun d => exists t a tags,
                d = record_of t a tags /\ t <> [] /\ a <> [] /\ (0 <= length tags)%nat) recs.

(** The calls one turn of the loop makes on the page. *)
Definition page_call (ev : event) : Prop :=
  match ev with
  | CallGoto _ | CallWaitForSelector _ _ | CallContent | CallClick => True
  | _ => False
  end.

(** [browses st st']: [st'] comes after [st] in a run that only made calls
    on the page.  Such a run adds page calls to the trace and lines to the
    end of files, keeps the page open, and leaves alone what was fixed
    when the session started. *)
Definition browses {B : Type} (st st' : @state B) : Prop :=
  (exists evs, trace st'.2 = trace st.2 ++ evs /\ Forall page_call evs) /\
  (forall path, read_lines (files st.2) path `prefix_of` read_lines (files st'.2) path) /\
  (is_Some (page st.1) -> is_Some (page st'.1)) /\
  proxy_url st'.1 = proxy_url st.1 /\
  browser st'.1 = browser st.1 /\
  playwright st'.1 = playwright st.1.

(** A call that does not use the proxy: no parsing of credentials, and no
    launch with proxy settings. *)
Definition unproxied (ev : event) : Prop :=
  ev <> CallProcessProxy /\ forall args, ev = CallLaunch args -> args = None.

(** A call made before teardown, in a run whose scraper has a usable
    [proxy_url] or not. *)
Definition before_teardown (proxied : bool) (ev : event) : Prop :=
  ev <> CallStopPlaywright /\ (proxied = false -> unproxied ev).

(** [grows P st st']: the trace grew by calls that satisfy [P], and every
    file grew at its end or stayed as it was. *)
Definition grows {B : Type} (P : event -> Prop) (st st' : @state B) : Prop :=
  (exists evs, trace st'.2 = trace st.2 ++ evs /\ Forall P evs) /\
  (forall path, read_lines (files st.2) path `prefix_of` read_lines (files st'.2) path) /\
  proxy_url st'.1 = proxy_url st.1.

(** The calls of a teardown after a session that started. *)
Definition teardown_calls : list event :=
  [CallStopPlaywright; CallBrowserClose; CallPlaywrightStop].

(** A method respects a relation when every call of it takes a state to a
    related one, however the call ends. *)
Definition respects {B A : Type} (R : relation (@state B)) (m : M A) : Prop :=
  forall st, R st (m st).1.

(** What [main] hands back to its caller from a run of [scrape]. *)
Definition outcome {B : Type} (r : @state B * res unit) : world * res unit :=
  (r.1.2, r.2).

(** The line [main] prints when a variable is not set. *)
Definition missing_message (env : gmap pystr pystr) : pystr :=
  py "Missing environment variables: "
  ++ join (py ", ") (List.filter (fun var => is_none (env !! var)) env_vars).

(** The reading of the teardown rule under which every run that opened a
    page and came back to its caller, normally or by an exception, has
    invoked teardown exactly once. *)
Definition teardown_on_every_exit : Prop :=
  forall (B H : Type) (P : Playwright B H) (fuel : nat) (st : @state B),
    page st.1 = None ->
    is_Some (page (scrape fuel st).1.1) ->
    (scrape fuel st).2 <> Fuel ->
    exists evs,
      trace (scrape fuel st).1.2 = trace st.2 ++ evs /\ teardowns evs = 1%nat.

(** The reading of the start-up rule under which the proxy variable may be
    left unset. *)
Definition proxy_is_optional : Prop :=
  forall (B H : Type) (P : Playwright B H) (fuel : nat)
         (dotenv environ : gmap pystr pystr) (w : world) (i o : pystr),
    load_dotenv dotenv environ !! py "INPUT_URL" = Some i ->
    load_dotenv dotenv environ !! py "OUTPUT_FILE" = Some o ->
    main fuel dotenv environ w = outcome (scrape fuel (Scraper_init i o None, w)).

(** ** Vocabulary of the further properties *)

(** How often a character occurs in a string. *)
Definition occurrences (c : N) (s : pystr) : nat :=
  length (List.filter (N.eqb c) s).

(** A part of a proxy string: it holds neither [@] (64) nor [:] (58). *)
Definition plain (part : pystr) : Prop := (64%N ∉ part) /\ (58%N ∉ part).

(** [username:password@host:port] *)
Definition proxy_string (usr pwd srv prt : pystr) : pystr :=
  usr ++ 58%N :: pwd ++ 64%N :: srv ++ 58%N :: prt.

(** [later st st']: the trace of [st'] continues the trace of [st]. *)
Definition later {B : Type} (st st' : @state B) : Prop :=
  exists evs, trace st'.2 = trace st.2 ++ evs.

(** The calls that set a session up, as far as they got: the parsing of
    the proxy string if there is one, the launch, the opening of the page
    with a user agent of the pool. *)
Definition setup_calls (evs : list event) : Prop :=
  exists parse open,
    evs = parse ++ open /\
    (parse = [] \/ parse = [CallProcessProxy]) /\
    (open = [] \/
     (exists args, open = [CallLaunch args]) \/
     (exists args user_agent,
        open = [CallLaunch args; CallNewPage user_agent] /\
        user_agent ∈ USER_AGENTS)).

(** The arguments [start_playwright] launches the browser with. *)
Definition launch_args {B : Type} (s : @Scraper B) : option proxy_settings :=
  if truthy (proxy_url s)
  then Some {| ps_server := fmt (server s) ++ py ":" ++ fmt (port s);
               ps_username := username s;
               ps_password := password s |}
  else None.

(** The keys of a dictionary, in order. *)
Definition keys (d : pydict) : list pystr := map fst d.

Section Journeys.

Context {B H : Type} `{!Playwright B H}.




End Journeys.

(** More browsers for examples. *)
Module Fixtures.



(** The two-page site in a browser where a click never gets through. *)
Definition stale_browser : Playwright pystr unit :=
  {| launch := fun _ => inr (py "about:blank");
     new_page := fun b _ => inr b;
     goto := fun _ u => inr u;
     wait_for_selector := fun b selector _ => Site.site_wait Site.two_pages b selector;
     content := fun b => inr [];
     click := fun _ _ => inl TimeoutError;
     url := fun b => b |}.

(** A scraper about to call [scrape] with a proxy string. *)
Definition proxied (proxy_url : pystr) : @state pystr :=
  (Scraper_init (py "http://site/") (py "out.jsonl") (Some proxy_url), Site.empty_world).

End Fixtures.

(** ** The fixed-offset strip *)

Section Strip.

Lemma clamp_one (len : Z) : 0 <= len -> clamp len 1 = Z.min 1 len.
Proof. intros _. reflexivity. Qed.

Lemma clamp_minus_one (len : Z) : 0 <= len -> clamp len (-1) = Z.max 0 (len - 1).
Proof. intros _. unfold clamp. simpl. f_equal. lia. Qed.

Lemma strip_spec {A} (t : list A) :
  slice t 1 (-1) = take (length t - 2) (drop 1 t).
Proof.
  unfold slice.
  rewrite clamp_one, clamp_minus_one by lia.
  destruct t as [|c [|c' t]]; [reflexivity..|].
  cbn [length].
  replace (Z.to_nat (Z.min 1 (Z.of_nat (S (S (length t)))))) with 1%nat by lia.
  f_equal. lia.
Qed.

Lemma strip_length {A} (t : list A) :
  length (slice t 1 (-1)) = (length t - 2)%nat.
Proof. rewrite strip_spec, length_take, length_drop. lia. Qed.

Lemma strip_ends {A} (first last : A) (middle : list A) :
  slice (first :: middle ++ [last]) 1 (-1) = middle.
Proof.
  rewrite strip_spec. cbn [length drop].
  rewrite length_app. cbn [length].
  replace (S (length middle + 1) - 2)%nat with (length middle) by lia.
  apply take_app_length.
Qed.

Lemma strip_short {A} (t : list A) :
  (length t <= 1)%nat -> slice t 1 (-1) = [].
Proof.
  intros Hlen. apply length_zero_iff_nil. rewrite strip_length. lia.
Qed.

Lemma two_ends {A} (t : list A) :
  (2 <= length t)%nat -> exists first middle last, t = first :: middle ++ [last].
Proof.
  destruct t as [|first t]; cbn [length]; [lia|].
  intros Hlen.
  destruct (exists_last (l := t)) as (middle & last & ->).
  { intros ->. cbn in Hlen. lia. }
  eauto.
Qed.

Lemma strip_nonempty {A} (t : list A) :
  slice t 1 (-1) <> [] <-> (3 <= length t)%nat.
Proof.
  rewrite <- length_zero_iff_nil, strip_length. lia.
Qed.

End Strip.

(** ** The fields of one record *)

Section Fields.

Lemma quote_dict_inr (quote : node) (d : pydict) :
  quote_dict quote = inr d <->
  exists span small container,
    find (py "span") (py "text") quote = Some span /\
    find (py "small") (py "author") quote = Some small /\
    find (py "div") (py "tags") quote = Some container /\
    d = record_of (slice (text span) 1 (-1)) (text small)
                  (map text (find_all (py "a") (py "tag") container)).
Proof.
  unfold quote_dict, text_of, find_all_of, record_of. split.
  - destruct (find (py "span") (py "text") quote) as [span|]; [|discriminate].
    destruct (find (py "small") (py "author") quote) as [small|]; [|discriminate].
    destruct (find (py "div") (py "tags") quote) as [container|]; [|discriminate].
    intros [= <-]. eauto 10.
  - intros (span & small & container & -> & -> & -> & ->). reflexivity.
Qed.

Lemma quote_dict_inl (quote : node) (e : exn) :
  quote_dict quote = inl e -> e = AttributeError.
Proof.
  unfold quote_dict, text_of, find_all_of.
  repeat case_match; congruence.
Qed.

Lemma well_formed_spec (quote : node) :
  well_formed quote = true <-> exists d, quote_dict quote = inr d.
Proof.
  unfold well_formed.
  rewrite !andb_true_iff, !bool_decide_eq_true. split.
  - intros [[[span Hs] [small Ha]] [container Ht]].
    eexists. apply quote_dict_inr. eauto 10.
  - intros [d (span & small & container & Hs & Ha & Ht & _)%quote_dict_inr].
    rewrite Hs, Ha, Ht. eauto.
Qed.

Lemma malformed_spec (quote : node) :
  well_formed quote = false <-> quote_dict quote = inl AttributeError.
Proof.
  split.
  - intros Hwf. destruct (quote_dict quote) as [e|d] eqn:Hq.
    + by rewrite (quote_dict_inl _ _ Hq).
    + assert (well_formed quote = true) by (apply well_formed_spec; eauto).
      congruence.
  - intros Hq. destruct (well_formed quote) eqn:Hwf; [|done].
    apply well_formed_spec in Hwf as [d Hd]. congruence.
Qed.

End Fields.

(** ** The writer loop *)

Section WriterLoop.

Lemma write_quotes_all (quotes : list node) :
  forall (lines recs : jsonl),
    Forall2 (fun q d => quote_dict q = inr d) quotes recs ->
    write_quotes quotes lines = (lines ++ recs, Val tt).
Proof.
  induction quotes as [|q quotes IH]; intros lines recs Hall.
  - apply Forall2_nil_inv_l in Hall as ->. by rewrite app_nil_r.
  - apply Forall2_cons_inv_l in Hall as (d & recs' & Hd & Hall & ->).
    cbn [write_quotes]. rewrite Hd, (IH _ recs' Hall).
    by rewrite <- app_assoc.
Qed.

Lemma well_formed_all (quotes : list node) :
  Forall (fun q => well_formed q = true) quotes ->
  exists recs, Forall2 (fun q d => quote_dict q = inr d) quotes recs.
Proof.
  induction 1 as [|q quotes [d Hd]%well_formed_spec _ [recs IH]].
  - exists []. constructor.
  - exists (d :: recs). by constructor.
Qed.

Lemma write_quotes_extends (quotes : list node) :
  forall lines, exists recs, (write_quotes quotes lines).1 = lines ++ recs.
Proof.
  induction quotes as [|q quotes IH]; intros lines; cbn [write_quotes].
  - exists []. by rewrite app_nil_r.
  - destruct (quote_dict q) as [e|d].
    + exists []. by rewrite app_nil_r.
    + destruct (IH (lines ++ [d])) as [recs ->].
      exists (d :: recs). by rewrite <- app_assoc.
Qed.

Lemma write_quotes_malformed (quotes : list node) :
  forall (lines : jsonl) (k : nat) (quote : node),
    quotes !! k = Some quote ->
    well_formed quote = false ->
    exists (j : nat) (recs : jsonl),
      (j <= k)%nat /\
      write_quotes quotes lines = (lines ++ recs, Exn AttributeError) /\
      Forall2 (fun q d => quote_dict q = inr d) (take j quotes) recs /\
      (Forall (fun q => well_formed q = true) (take k quotes) -> j = k).
Proof.
  induction quotes as [|q quotes IH]; intros lines k quote Hk Hbad; [done|].
  cbn [write_quotes].
  destruct (quote_dict q) as [e|d] eqn:Hq.
  - apply quote_dict_inl in Hq as He. subst e.
    exists 0%nat, []. rewrite app_nil_r.
    repeat split; [lia | constructor |].
    destruct k as [|k]; [done|].
    cbn [take]. intros Hwf%Forall_cons_1. destruct Hwf as [Hwf _].
    apply well_formed_spec in Hwf as [d Hd]. congruence.
  - destruct k as [|k].
    + cbn in Hk. injection Hk as ->.
      apply malformed_spec in Hbad. congruence.
    + cbn in Hk.
      destruct (IH (lines ++ [d]) k quote Hk Hbad) as (j & recs & Hj & Hw & Hall & Hfirst).
      exists (S j), (d :: recs). repeat split.
      * lia.
      * by rewrite Hw, <- app_assoc.
      * cbn [take]. by constructor.
      * cbn [take]. intros [_ Hwf]%Forall_cons_1. f_equal. by apply Hfirst.
Qed.

Lemma write_quotes_through (before : list node) (recs : jsonl) :
  forall (rest : list node) (lines : jsonl),
    Forall2 (fun q d => quote_dict q = inr d) before recs ->
    write_quotes (before ++ rest) lines = write_quotes rest (lines ++ recs).
Proof.
  revert recs. induction before as [|q before IH]; intros recs rest lines Hall.
  - apply Forall2_nil_inv_l in Hall as ->. by rewrite app_nil_r.
  - apply Forall2_cons_inv_l in Hall as (d & recs' & Hd & Hall & ->).
    cbn [app write_quotes]. rewrite Hd, (IH recs' rest _ Hall).
    by rewrite <- app_assoc.
Qed.

Lemma records_before_all (k : nat) (quotes : list node) (recs : jsonl) :
  Forall2 (fun q d => quote_dict q = inr d) (take k quotes) recs ->
  records_before k quotes = recs.
Proof.
  unfold records_before. generalize (take k quotes). intros l.
  induction 1 as [|q d l recs Hd _ IH]; [done|].
  cbn. by rewrite Hd, IH.
Qed.

Lemma write_quotes_shift (quotes : list node) :
  forall lines,
    write_quotes quotes lines
    = (lines ++ (write_quotes quotes []).1, (write_quotes quotes []).2).
Proof.
  induction quotes as [|q quotes IH]; intros lines; cbn [write_quotes].
  - by rewrite app_nil_r.
  - destruct (quote_dict q) as [e|d]; cbn [fst snd].
    + by rewrite app_nil_r.
    + rewrite (IH (lines ++ [d])), (IH ([] ++ [d])). cbn [fst snd].
      by rewrite <- !app_assoc.
Qed.

Lemma find_all_tag_links (name : pystr) (cls : list pystr) (ts : list pystr) :
  map text (find_all (py "a") (py "tag") (Tag name cls (map tag_link ts))) = ts.
Proof.
  unfold find_all. cbn [descendants].
  induction ts as [|t ts IH]; [reflexivity|].
  cbn [map flat_map]. rewrite List.filter_app, map_app, IH.
  replace (List.filter (matches (py "a") (py "tag")) (subtree (tag_link t)))
    with [tag_link t] by (symmetry; vm_compute; reflexivity).
  cbn. by rewrite app_nil_r.
Qed.

End WriterLoop.

(** ** Properties of the extraction step *)

Section ExtractionProperties.

(** The example of the specification: thirteen characters between and
    including the two quote glyphs, of which the middle eleven are kept. *)
Example strip_hello_world :
  length (Site.quoted (py "Hello world")) = 13%nat /\
  slice (Site.quoted (py "Hello world")) 1 (-1) = py "Hello world" /\
  length (py "Hello world") = 11%nat.
Proof. repeat split. Qed.

(** C5.  The stored text of a record is the matched text without its first
    and without its last character, whenever the matched text has at
    least two characters. *)
Theorem text_is_stripped_of_both_ends (quote span : node) (d : pydict) :
  find (py "span") (py "text") quote = Some span ->
  quote_dict quote = inr d ->
  (2 <= length (text span))%nat ->
  exists first middle last,
    text span = first :: middle ++ [last] /\
    dict_get d (py "text") = Some (VStr middle).
Proof.
  intros Hspan (span' & small & container & Hs & _ & _ & ->)%quote_dict_inr Hlen.
  assert (span' = span) as -> by congruence.
  destruct (two_ends _ Hlen) as (first & middle & last & Heq).
  exists first, middle, last. split; [done|].
  rewrite Heq, strip_ends. reflexivity.
Qed.

Lemma text_is_stripped_of_both_ends_witness :
  exists first middle last,
    Site.quoted (py "Hello world") = first :: middle ++ [last] /\
    dict_get (record_of (py "Hello world") (py "Nobody") []) (py "text")
    = Some (VStr middle).
Proof.
  apply (text_is_stripped_of_both_ends
           (Site.quote_div (Site.quoted (py "Hello world")) (py "Nobody") [])
           (Tag (py "span") [py "text"] [NavigableString (Site.quoted (py "Hello world"))])
           (record_of (py "Hello world") (py "Nobody") [])).
  - reflexivity.
  - reflexivity.
  - vm_compute. lia.
Defined.

(** C10.  A matched text of length 0 or 1 does not make the extraction of
    its record fail: the stored text is the empty string, and the record
    is written like any other before the loop goes on.  After the loop the
    record is in the file, right after the lines that were there and the
    records of the containers before it. *)
Theorem short_text_is_stored_empty (quote span small container : node) :
  find (py "span") (py "text") quote = Some span ->
  find (py "small") (py "author") quote = Some small ->
  find (py "div") (py "tags") quote = Some container ->
  (length (text span) <= 1)%nat ->
  let d := record_of [] (text small) (map text (find_all (py "a") (py "tag") container)) in
  quote_dict quote = inr d /\
  dict_get d (py "text") = Some (VStr []) /\
  (forall rest lines,
     write_quotes (quote :: rest) lines = write_quotes rest (lines ++ [d])) /\
  (forall rest lines,
     exists recs, (write_quotes (quote :: rest) lines).1 = lines ++ d :: recs) /\
  (forall page_content before rest lines,
     quotes_of page_content = before ++ quote :: rest ->
     Forall (fun q => well_formed q = true) before ->
     exists earlier later,
       length earlier = length before /\
       (process_content page_content lines).1 = lines ++ earlier ++ d :: later).
Proof.
  intros Hs Ha Ht Hlen d.
  assert (quote_dict quote = inr d) as Hd.
  { apply quote_dict_inr. exists span, small, container.
    repeat split; try done. subst d. by rewrite (strip_short _ Hlen). }
  assert (forall rest lines,
            exists recs, (write_quotes (quote :: rest) lines).1 = lines ++ d :: recs)
    as Hsink.
  { intros rest lines. cbn [write_quotes]. rewrite Hd.
    destruct (write_quotes_extends rest (lines ++ [d])) as [recs ->].
    exists recs. by rewrite <- app_assoc. }
  split; [done|]. split; [reflexivity|]. split; [|split; [exact Hsink|]].
  - intros rest lines. cbn [write_quotes]. by rewrite Hd.
  - intros page_content before rest lines Hquotes Hbefore.
    unfold process_content. rewrite Hquotes.
    destruct (well_formed_all before Hbefore) as [earlier Hall].
    rewrite (write_quotes_through before earlier (quote :: rest) lines Hall).
    destruct (Hsink rest (lines ++ earlier)) as [later ->].
    exists earlier, later. split; [symmetry; by eapply Forall2_length|].
    by rewrite <- app_assoc.
Qed.

Lemma short_text_is_stored_empty_witness :
  let quote := Site.quote_div [8220%N] (py "Nobody") [py "brief"] in
  let d := record_of [] (py "Nobody") [py "brief"] in
  quote_dict quote = inr d /\
  dict_get d (py "text") = Some (VStr []) /\
  (forall rest lines,
     write_quotes (quote :: rest) lines = write_quotes rest (lines ++ [d])) /\
  (forall rest lines,
     exists recs, (write_quotes (quote :: rest) lines).1 = lines ++ d :: recs) /\
  (forall page_content before rest lines,
     quotes_of page_content = before ++ quote :: rest ->
     Forall (fun q => well_formed q = true) before ->
     exists earlier later,
       length earlier = length before /\
       (process_content page_content lines).1 = lines ++ earlier ++ d :: later).
Proof.
  apply (short_text_is_stored_empty
           (Site.quote_div [8220%N] (py "Nobody") [py "brief"])
           (Tag (py "span") [py "text"] [NavigableString [8220%N]])
           (Tag (py "small") [py "author"] [NavigableString (py "Nobody")])
           (Tag (py "div") [py "tags"]
              (NavigableString (py "Tags: ") :: map tag_link [py "brief"]))).
  - reflexivity.
  - reflexivity.
  - reflexivity.
  - vm_compute. lia.
Defined.

(** C7.  The stored tags are the texts of the tag links below the tag
    container of the record, in document order; with no tag link the
    record still has its [tags] key, holding the empty list. *)
Theorem tags_are_texts_in_document_order (quote : node) (d : pydict) :
  quote_dict quote = inr d ->
  exists container,
    find (py "div") (py "tags") quote = Some container /\
    dict_get d (py "tags")
    = Some (VList (map text (List.filter (matches (py "a") (py "tag"))
                                         (descendants container)))) /\
    (find_all (py "a") (py "tag") container = [] ->
     dict_get d (py "tags") = Some (VList [])) /\
    (forall name cls ts, container = Tag name cls (map tag_link ts) ->
     dict_get d (py "tags") = Some (VList ts)).
Proof.
  intros (span & small & container & _ & _ & Ht & ->)%quote_dict_inr.
  exists container. split; [done|]. split; [reflexivity|]. split.
  - intros Hnone. rewrite Hnone. reflexivity.
  - intros name cls ts ->. rewrite find_all_tag_links. reflexivity.
Qed.

Lemma tags_are_texts_in_document_order_witness :
  exists container,
    find (py "div") (py "tags")
         (Tag (py "div") [py "quote"]
            [ Tag (py "span") [py "text"] [NavigableString (Site.quoted (py "x"))];
              Tag (py "small") [py "author"] [NavigableString (py "A")];
              Tag (py "div") [py "tags"] (map tag_link [py "one"; py "two"]) ])
    = Some container /\
    dict_get (record_of (py "x") (py "A") [py "one"; py "two"]) (py "tags")
    = Some (VList (map text (List.filter (matches (py "a") (py "tag"))
                                         (descendants container)))) /\
    (find_all (py "a") (py "tag") container = [] ->
     dict_get (record_of (py "x") (py "A") [py "one"; py "two"]) (py "tags")
     = Some (VList [])) /\
    (forall name cls ts, container = Tag name cls (map tag_link ts) ->
     dict_get (record_of (py "x") (py "A") [py "one"; py "two"]) (py "tags")
     = Some (VList ts)).
Proof.
  apply (tags_are_texts_in_document_order
           (Tag (py "div") [py "quote"]
              [ Tag (py "span") [py "text"] [NavigableString (Site.quoted (py "x"))];
                Tag (py "small") [py "author"] [NavigableString (py "A")];
                Tag (py "div") [py "tags"] (map tag_link [py "one"; py "two"]) ])).
  reflexivity.
Defined.

(** Where the extraction of a page stops when its k-th container lacks a
    sub-element: at a container that is the k-th or comes before it, with
    one record written for each container before that one. *)
Lemma malformed_container_aborts_page
    (page_content : list node) (lines : jsonl) (k : nat) (quote : node) :
  quotes_of page_content !! k = Some quote ->
  well_formed quote = false ->
  exists (j : nat) (recs : jsonl),
    (j <= k)%nat /\
    process_content page_content lines = (lines ++ recs, Exn AttributeError) /\
    Forall2 (fun q d => quote_dict q = inr d) (take j (quotes_of page_content)) recs /\
    (Forall (fun q => well_formed q = true) (take k (quotes_of page_content)) -> j = k).
Proof.
  intros Hk Hbad. unfold process_content.
  by apply (write_quotes_malformed _ lines k quote).
Qed.

(** C4, as the code has it.  When the k-th record container of a page is
    the first that lacks one of the three sub-elements, the extraction of
    the page raises [AttributeError]; the file then holds the lines it
    held before followed by one record for each of the k containers before
    the k-th, in document order, and no record of the k-th container or of
    a later one. *)
Theorem first_malformed_container_aborts_page
    (page_content : list node) (lines : jsonl) (k : nat) (quote : node) :
  quotes_of page_content !! k = Some quote ->
  well_formed quote = false ->
  Forall (fun q => well_formed q = true) (take k (quotes_of page_content)) ->
  exists recs : jsonl,
    process_content page_content lines = (lines ++ recs, Exn AttributeError) /\
    length recs = k /\
    Forall2 (fun q d => quote_dict q = inr d) (take k (quotes_of page_content)) recs /\
    recs = records_before k (quotes_of page_content).
Proof.
  intros Hk Hbad Hfirst. unfold process_content.
  destruct (write_quotes_malformed _ lines k quote Hk Hbad)
    as (j & recs & _ & Hrun & Hall & Hj).
  rewrite (Hj Hfirst) in Hall.
  exists recs. split; [exact Hrun|]. split; [|split; [exact Hall|]].
  - rewrite <- (Forall2_length _ _ _ Hall), length_take.
    apply lookup_lt_Some in Hk. lia.
  - symmetry. by apply records_before_all.
Qed.

Lemma first_malformed_container_aborts_page_witness :
  let page_content :=
    [ Site.quote_div (Site.quoted (py "first")) (py "A") [];
      Tag (py "div") [py "quote"]
        [Tag (py "span") [py "text"] [NavigableString (Site.quoted (py "second"))]];
      Site.quote_div (Site.quoted (py "third")) (py "C") [] ] in
  exists recs : jsonl,
    process_content page_content [] = ([] ++ recs, Exn AttributeError) /\
    length recs = 1%nat /\
    Forall2 (fun q d => quote_dict q = inr d) (take 1 (quotes_of page_content)) recs /\
    recs = records_before 1 (quotes_of page_content).
Proof.
  intros page_content.
  apply (first_malformed_container_aborts_page page_content [] 1
           (Tag (py "div") [py "quote"]
              [Tag (py "span") [py "text"] [NavigableString (Site.quoted (py "second"))]])).
  - reflexivity.
  - reflexivity.
  - constructor; [reflexivity | constructor].
Defined.

(** C4, counterexample.  On a page whose first and third containers lack
    the author and whose second is well formed, the extraction stops at
    the first: the record of the second, which comes before the malformed
    third, is never written. *)
Lemma every_earlier_record_persists_fails : ~ every_earlier_record_persists.
Proof.
  intros Hclaim.
  pose (bad := Tag (py "div") [py "quote"]
                 [Tag (py "span") [py "text"] [NavigableString (Site.quoted (py "x"))]]).
  destruct (Hclaim [bad; Site.quote_div (Site.quoted (py "kept")) (py "B") []; bad]
                   [] 2%nat bad eq_refl eq_refl) as [e Hrun].
  vm_compute in Hrun. discriminate.
Qed.

(** C3, as the code has it.  On a page whose record containers are all
    well formed, one call of the extraction step adds one record for each
    container, in document order.  The text of a record is the matched
    text without its two end characters, so it is non-empty exactly when
    the matched text has three characters or more; the author is the text
    of the author element as it is; the tags are a list of any length. *)
Theorem extraction_appends_one_record_per_container
    (page_content : list node) (lines : jsonl) :
  Forall (fun q => well_formed q = true) (quotes_of page_content) ->
  exists recs,
    process_content page_content lines = (lines ++ recs, Val tt) /\
    length recs = length (quotes_of page_content) /\
    Forall2 (fun quote d =>
               exists span small container,
                 find (py "span") (py "text") quote = Some span /\
                 find (py "small") (py "author") quote = Some small /\
                 find (py "div") (py "tags") quote = Some container /\
                 let stored := slice (text span) 1 (-1) in
                 let tags := map text (find_all (py "a") (py "tag") container) in
                 d = record_of stored (text small) tags /\
                 (stored <> [] <-> (3 <= length (text span))%nat) /\
                 (0 <= length tags)%nat)
            (quotes_of page_content) recs.
Proof.
  intros [recs Hall]%well_formed_all.
  exists recs. split; [|split].
  - by apply write_quotes_all.
  - symmetry. by eapply Forall2_length.
  - eapply Forall2_impl; [exact Hall|].
    intros q d (span & small & container & Hs & Ha & Ht & ->)%quote_dict_inr.
    exists span, small, container. repeat split; try done.
    + by apply strip_nonempty.
    + by apply strip_nonempty.
    + lia.
Qed.

Lemma extraction_appends_one_record_per_container_witness :
  exists recs,
    process_content (Site.pd_content Site.page_a) [] = ([] ++ recs, Val tt) /\
    length recs = length (quotes_of (Site.pd_content Site.page_a)) /\
    Forall2 (fun quote d =>
               exists span small container,
                 find (py "span") (py "text") quote = Some span /\
                 find (py "small") (py "author") quote = Some small /\
                 find (py "div") (py "tags") quote = Some container /\
                 let stored := slice (text span) 1 (-1) in
                 let tags := map text (find_all (py "a") (py "tag") container) in
                 d = record_of stored (text small) tags /\
                 (stored <> [] <-> (3 <= length (text span))%nat) /\
                 (0 <= length tags)%nat)
            (quotes_of (Site.pd_content Site.page_a)) recs.
Proof.
  apply (extraction_appends_one_record_per_container (Site.pd_content Site.page_a) []).
  constructor; [reflexivity | constructor].
Defined.

(** C3, counterexample.  A container that has its three sub-elements, with
    nothing between the two quote glyphs, is written with an empty text. *)
Lemma records_never_empty_fails : ~ records_never_empty.
Proof.
  intros Hclaim.
  destruct (Hclaim [Site.quote_div (Site.quoted []) (py "Nobody") []] [])
    as (recs & Hrun & _ & Hall).
  { repeat constructor. }
  vm_compute in Hrun. injection Hrun as <-.
  apply Forall_cons_1 in Hall as [(t & a & tags & Hd & Ht & _) _].
  vm_compute in Hd. congruence.
Qed.

End ExtractionProperties.

(** ** Reasoning about methods *)

Section Methods.

Context {B H : Type} `{!Playwright B H}.

Implicit Types st : @state B.

Lemma bind_run {A C} (m : M A) (k : A -> M C) st :
  (m ≫= k) st =
  match m st with
  | (st', Val a) => k a st'
  | (st', Exn e) => (st', Exn e)
  | (st', Fuel) => (st', Fuel)
  end.
Proof. reflexivity. Qed.

#[local] Instance browses_preorder : PreOrder (@browses B).
Proof.
  split.
  - intros st. unfold browses. repeat split; try done.
    exists []. by rewrite app_nil_r.
  - intros st1 st2 st3
      ((evs1 & Ht1 & Hp1) & Hf1 & Hpg1 & Hx1 & Hb1 & Hw1)
      ((evs2 & Ht2 & Hp2) & Hf2 & Hpg2 & Hx2 & Hb2 & Hw2).
    unfold browses. repeat split.
    + exists (evs1 ++ evs2). rewrite Ht2, Ht1, <- app_assoc.
      split; [done|]. by apply Forall_app.
    + intros path. etransitivity; [apply Hf1 | apply Hf2].
    + auto.
    + congruence.
    + congruence.
    + congruence.
Qed.

Lemma respects_bind {A C} (R : relation (@state B)) `{!PreOrder R}
    (m : M A) (k : A -> M C) :
  respects R m -> (forall a, respects R (k a)) -> respects R (m ≫= k).
Proof.
  intros Hm Hk st. rewrite bind_run. specialize (Hm st).
  destruct (m st) as [st' [a|e|]]; cbn in *; [|done..].
  etransitivity; [exact Hm | apply Hk].
Qed.

Lemma respects_pure {A} (R : relation (@state B)) `{!Reflexive R} (m : M A) :
  (forall st, (m st).1 = st) -> respects R m.
Proof. intros Hm st. by rewrite Hm. Qed.

Lemma browses_log (ev : event) : page_call ev -> respects (@browses B) (log ev).
Proof.
  intros Hev st. unfold browses. cbn. repeat split; try done.
  exists [ev]. split; [done|]. by constructor.
Qed.

Lemma browses_print (line : pystr) : respects (@browses B) (print line).
Proof.
  intros st. unfold browses. cbn. repeat split; try done.
  exists []. by rewrite app_nil_r.
Qed.

Lemma browses_set_page (b : B) : respects (@browses B) (modify_self (set_page (Some b))).
Proof.
  intros st. unfold browses. cbn. repeat split; try done.
  exists []. by rewrite app_nil_r.
Qed.

Lemma browses_set_input_url (u : pystr) : respects (@browses B) (modify_self (set_input_url u)).
Proof.
  intros st. unfold browses. cbn. repeat split; try done.
  exists []. by rewrite app_nil_r.
Qed.

Lemma browses_call {A} (ev : event) (r : exn + A) :
  page_call ev -> respects (@browses B) (call ev r).
Proof.
  intros Hev. unfold call. apply respects_bind; [apply _ | by apply browses_log |].
  intros _. destruct r; by apply respects_pure; [apply _|].
Qed.

Lemma call_run {A} (ev : event) (r : exn + A) st :
  call ev r st
  = ((log ev st).1, match r with inl e => Exn e | inr a => Val a end).
Proof. unfold call. rewrite bind_run. cbn. by destruct r. Qed.

Lemma browses_the_page : respects (@browses B) the_page.
Proof.
  apply respects_pure; [apply _|]. intros st.
  unfold the_page. rewrite bind_run. cbn. by destruct (page st.1).
Qed.

Lemma read_lines_insert (fs : gmap pystr jsonl) (path path' : pystr) (lines : jsonl) :
  read_lines (<[path := lines]> fs) path' =
  if decide (path = path') then lines else read_lines fs path'.
Proof.
  unfold read_lines. rewrite lookup_insert. by case_decide.
Qed.

Lemma browses_append_to (path : pystr) (body : jsonl -> jsonl * res unit) :
  (forall lines, lines `prefix_of` (body lines).1) ->
  respects (@browses B) (append_to path body).
Proof.
  intros Hbody st. unfold append_to.
  specialize (Hbody (read_lines (files st.2) path)).
  destruct (body (read_lines (files st.2) path)) as [lines r].
  unfold browses. cbn in *. repeat split; try done.
  - exists []. by rewrite app_nil_r.
  - intros path'. rewrite read_lines_insert. case_decide; by subst.
Qed.

Lemma write_quotes_prefix (quotes : list node) (lines : jsonl) :
  lines `prefix_of` (write_quotes quotes lines).1.
Proof.
  destruct (write_quotes_extends quotes lines) as [recs ->].
  by apply prefix_app_r.
Qed.

Ltac browse_step :=
  lazymatch goal with
  | |- respects _ (_ ≫= _) => apply respects_bind; [apply _ | | intros ?]
  | |- respects _ the_page => apply browses_the_page
  | |- respects _ (print _) => apply browses_print
  | |- respects _ (modify_self (set_page _)) => apply browses_set_page
  | |- respects _ (modify_self (set_input_url _)) => apply browses_set_input_url
  | |- respects _ (call _ _) => apply browses_call; exact I
  | |- respects _ (log _) => apply browses_log; exact I
  | |- respects _ (mret _) => apply respects_pure; [apply _ | reflexivity]
  | |- respects _ (raise _) => apply respects_pure; [apply _ | reflexivity]
  | |- respects _ get_self => apply respects_pure; [apply _ | reflexivity]
  end.

Lemma browses_wait_for_quotes (timeout : Z) :
  respects (@browses B) (wait_for_quotes timeout).
Proof.
  unfold wait_for_quotes. repeat browse_step.
  match goal with found : (B * H)%type |- _ => destruct found as [b' h] end.
  browse_step.
Qed.

Lemma browses_process_page : respects (@browses B) process_page.
Proof.
  unfold process_page. repeat browse_step.
  apply browses_append_to. intros lines. apply write_quotes_prefix.
Qed.

Lemma browses_paginate : respects (@browses B) paginate.
Proof.
  unfold paginate. repeat browse_step.
  match goal with |- context [wait_for_selector ?b ?sel ?t] =>
    destruct (wait_for_selector b sel t) as [e|[b' next_button]]
  end.
  - destruct e; browse_step.
  - repeat browse_step.
Qed.

Lemma browses_load_and_extract : respects (@browses B) load_and_extract.
Proof.
  unfold load_and_extract. repeat browse_step.
  - apply browses_wait_for_quotes.
  - apply browses_process_page.
Qed.

Lemma browses_loop_body : respects (@browses B) loop_body.
Proof.
  unfold loop_body. browse_step.
  - apply browses_load_and_extract.
  - apply browses_paginate.
Qed.

Lemma browses_scrape_loop (fuel : nat) : respects (@browses B) (scrape_loop fuel).
Proof.
  induction fuel as [|fuel IH]; cbn [scrape_loop].
  - by apply respects_pure; [apply _|].
  - apply respects_bind; [apply _ | apply browses_loop_body |].
    intros [|]; [exact IH|]. by apply respects_pure; [apply _|].
Qed.

Lemma the_page_run st (b : B) : page st.1 = Some b -> the_page st = (st, Val b).
Proof. intros Hb. unfold the_page. rewrite bind_run. cbn. by rewrite Hb. Qed.

(** The pagination step when a next link is found and followed. *)
Lemma paginate_next st (b b' b'' : B) (next_button : H) :
  page st.1 = Some b ->
  wait_for_selector b (py "li.next a") 1000 = inr (b', next_button) ->
  click b' next_button = inr b'' ->
  paginate st
  = ((set_input_url (url b'') (set_page (Some b'') (set_page (Some b') st.1)),
      World (files st.2) (stdout st.2)
            (trace st.2 ++ [CallWaitForSelector (py "li.next a") 1000; CallClick])
            (rand st.2)),
     Val true).
Proof.
  intros Hb Hwait Hclick. unfold paginate.
  rewrite bind_run, (the_page_run _ _ Hb). rewrite bind_run. cbn [log fst snd].
  rewrite Hwait. rewrite bind_run. cbn [modify_self fst snd].
  rewrite bind_run, call_run, Hclick. cbn [log fst snd trace files stdout rand].
  rewrite bind_run. cbn [modify_self fst snd]. rewrite bind_run. cbn [modify_self fst snd].
  unfold mret, M_ret. by rewrite <- app_assoc.
Qed.




End Methods.

(** ** The phases of a run *)

Section Phases.

Context {B H : Type} `{!Playwright B H}.

Implicit Types st : @state B.

Lemma grows_refl (P : event -> Prop) st : grows P st st.
Proof.
  unfold grows. repeat split; try done.
  exists []. by rewrite app_nil_r.
Qed.

Lemma grows_trans (P : event -> Prop) st1 st2 st3 :
  grows P st1 st2 -> grows P st2 st3 -> grows P st1 st3.
Proof.
  intros ((evs1 & Ht1 & Hp1) & Hf1 & Hx1) ((evs2 & Ht2 & Hp2) & Hf2 & Hx2).
  unfold grows. repeat split.
  - exists (evs1 ++ evs2). rewrite Ht2, Ht1, <- app_assoc.
    split; [done|]. by apply Forall_app.
  - intros path. etransitivity; [apply Hf1 | apply Hf2].
  - congruence.
Qed.

Lemma page_call_before_teardown (proxied : bool) (ev : event) :
  page_call ev -> before_teardown proxied ev.
Proof.
  unfold before_teardown, unproxied. destruct ev; cbn; try done.
Qed.

Lemma browses_grows (proxied : bool) st st' :
  browses st st' -> grows (before_teardown proxied) st st'.
Proof.
  intros ((evs & Ht & Hp) & Hf & _ & Hx & _). unfold grows. repeat split; try done.
  exists evs. split; [done|].
  eapply Forall_impl; [exact Hp|]. apply page_call_before_teardown.
Qed.

Lemma teardowns_none (proxied : bool) (evs : list event) :
  Forall (before_teardown proxied) evs -> teardowns evs = 0%nat.
Proof.
  unfold teardowns. induction 1 as [|ev evs [Hev _] _ IH]; [done|].
  cbn. by rewrite bool_decide_eq_false_2.
Qed.

Lemma teardowns_app (evs1 evs2 : list event) :
  teardowns (evs1 ++ evs2) = (teardowns evs1 + teardowns evs2)%nat.
Proof. unfold teardowns. by rewrite List.filter_app, length_app. Qed.

Lemma launch_before_teardown (proxied : bool) (args : option proxy_settings) :
  (proxied = false -> args = None) -> before_teardown proxied (CallLaunch args).
Proof.
  intros Hargs. split; [done|]. intros Hp. split; [done|].
  intros args' [= <-]. auto.
Qed.

Lemma new_page_before_teardown (proxied : bool) (user_agent : pystr) :
  before_teardown proxied (CallNewPage user_agent).
Proof. repeat split; done. Qed.

Lemma process_proxy_run st :
  exists s' r,
    process_proxy st
    = ((s', World (files st.2) (stdout st.2) (trace st.2 ++ [CallProcessProxy]) (rand st.2)), r)
    /\ proxy_url s' = proxy_url st.1.
Proof.
  unfold process_proxy. repeat (rewrite bind_run; cbn).
  repeat case_match; repeat (rewrite bind_run; cbn); repeat case_match;
    do 2 eexists; (split; [reflexivity|done]).
Qed.

Lemma process_proxy_grows st :
  grows (before_teardown true) st (process_proxy st).1.
Proof.
  destruct (process_proxy_run st) as (s' & r & -> & Hx).
  unfold grows. cbn. repeat split; try done.
  exists [CallProcessProxy]. split; [done|]. by repeat constructor.
Qed.

Lemma start_playwright_grows st :
  grows (before_teardown (truthy (proxy_url st.1))) st (start_playwright st).1 /\
  ((start_playwright st).2 <> Fuel) /\
  ((start_playwright st).2 = Val tt ->
   browser (start_playwright st).1.1 = true /\
   playwright (start_playwright st).1.1 = true /\
   is_Some (page (start_playwright st).1.1)).
Proof.
  unfold start_playwright. rewrite bind_run. cbn.
  rewrite bind_run. cbn. rewrite bind_run, call_run.
  set (args := if truthy (proxy_url st.1) then _ else _).
  assert (before_teardown (truthy (proxy_url st.1)) (CallLaunch args)) as Hargs.
  { apply launch_before_teardown. subst args. by intros ->. }
  clearbody args.
  destruct (launch args) as [e|b]; cbn.
  { split; [|done]. unfold grows. cbn. repeat split; try done.
    exists [CallLaunch args]. split; [done|]. repeat (apply List.Forall_cons; [assumption|]); apply List.Forall_nil. }
  rewrite bind_run. cbn. rewrite bind_run. cbn. rewrite bind_run, call_run.
  match goal with |- context [CallNewPage ?u] => set (user_agent := u) end.
  pose proof (new_page_before_teardown (truthy (proxy_url st.1)) user_agent) as Hua.
  clearbody user_agent.
  destruct (new_page b user_agent) as [e|b']; cbn.
  { split; [|done]. unfold grows. cbn. repeat split; try done.
    exists [CallLaunch args; CallNewPage user_agent].
    split; [by rewrite <- app_assoc|]. repeat (apply List.Forall_cons; [assumption|]); apply List.Forall_nil. }
  split; [|by eauto].
  unfold grows. cbn. repeat split; try done.
  exists [CallLaunch args; CallNewPage user_agent].
  split; [by rewrite <- app_assoc|]. repeat (apply List.Forall_cons; [assumption|]); apply List.Forall_nil.
Qed.

Lemma stop_playwright_run st :
  browser st.1 = true -> playwright st.1 = true ->
  stop_playwright st
  = ((st.1, World (files st.2) (stdout st.2) (trace st.2 ++ teardown_calls) (rand st.2)),
     Val tt).
Proof.
  intros Hb Hp. unfold stop_playwright, teardown_calls.
  rewrite bind_run. cbn. rewrite bind_run. cbn. rewrite Hb.
  rewrite bind_run. cbn. rewrite Hp. unfold log. cbn. by rewrite <- !app_assoc.
Qed.

End Phases.

(** ** A whole run of [scrape] *)

Section Run.

Context {B H : Type} `{!Playwright B H}.

Implicit Types st : @state B.

(** What a run of [scrape] does to the world, by the way it ends. *)
Lemma scrape_run (fuel : nat) st :
  (forall path,
     read_lines (files st.2) path `prefix_of` read_lines (files (scrape fuel st).1.2) path) /\
  proxy_url (scrape fuel st).1.1 = proxy_url st.1 /\
  exists evs,
    trace (scrape fuel st).1.2 = trace st.2 ++ evs /\
    match (scrape fuel st).2 with
    | Val _ =>
        is_Some (page (scrape fuel st).1.1) /\
        exists before,
          evs = before ++ teardown_calls /\
          Forall (before_teardown (truthy (proxy_url st.1))) before
    | _ => Forall (before_teardown (truthy (proxy_url st.1))) evs
    end.
Proof.
  set (p := truthy (proxy_url st.1)).
  assert (forall st',
            grows (before_teardown p) st st' ->
            (forall path, read_lines (files st.2) path `prefix_of` read_lines (files st'.2) path) /\
            proxy_url st'.1 = proxy_url st.1 /\
            exists evs, trace st'.2 = trace st.2 ++ evs /\ Forall (before_teardown p) evs)
    as Hstop.
  { intros st' ((evs & Ht & Hp) & Hf & Hx). eauto. }
  unfold scrape. rewrite bind_run. cbn [get_self fst snd]. rewrite bind_run.
  (* the credentials *)
  assert (grows (before_teardown p) st
            ((if truthy (proxy_url st.1) then process_proxy else mret tt) st).1) as G1.
  { subst p. destruct (truthy (proxy_url st.1)).
    - apply process_proxy_grows.
    - apply grows_refl. }
  destruct ((if truthy (proxy_url st.1) then process_proxy else mret tt) st)
    as [st1 [[]|e|]]; cbn [fst snd] in G1; [|by apply Hstop..].
  (* the start of the session *)
  rewrite bind_run.
  destruct (start_playwright_grows st1) as (G2 & Hfuel & Hup).
  assert (proxy_url st1.1 = proxy_url st.1) as Hx1 by apply G1.
  rewrite Hx1 in G2. fold p in G2.
  pose proof (grows_trans _ _ _ _ G1 G2) as G12.
  destruct (start_playwright st1) as [st2 [[]|e|]]; cbn [fst snd] in *;
    [|by apply Hstop|done].
  destruct (Hup eq_refl) as (Hb & Hw & Hpg).
  (* the loop *)
  rewrite bind_run.
  pose proof (browses_scrape_loop fuel st2) as Hloop.
  pose proof (browses_grows p _ _ Hloop) as G3.
  pose proof (grows_trans _ _ _ _ G12 G3) as G123.
  destruct Hloop as (_ & _ & Hpg' & _ & Hb' & Hw').
  destruct (scrape_loop fuel st2) as [st3 [[]|e|]]; cbn [fst snd] in *;
    [|by apply Hstop..].
  (* the teardown *)
  rewrite stop_playwright_run by congruence. cbn [fst snd].
  destruct G123 as ((evs & Ht & Hp) & Hf & Hx). repeat split; try done.
  exists (evs ++ teardown_calls). cbn [trace]. rewrite Ht, <- app_assoc.
  split; [done|]. split; [by auto|]. by exists evs.
Qed.

End Run.

(** ** Properties of the run *)

Section RunProperties.

Context {B H : Type} `{!Playwright B H}.

Implicit Types st : @state B.





Lemma main_run (fuel : nat) (dotenv environ : gmap pystr pystr) (w : world) :
  main fuel dotenv environ w =
  match load_dotenv dotenv environ !! py "PROXY",
        load_dotenv dotenv environ !! py "INPUT_URL",
        load_dotenv dotenv environ !! py "OUTPUT_FILE" with
  | Some _, Some i, Some o => outcome (scrape fuel (Scraper_init i o None, w))
  | _, _, _ => (print_to (missing_message (load_dotenv dotenv environ)) w, Val tt)
  end.
Proof.
  unfold main, missing_message, read_config, env_vars, outcome.
  cbn [map List.filter existsb fst snd].
  destruct (load_dotenv dotenv environ !! py "PROXY") as [p|];
    destruct (load_dotenv dotenv environ !! py "INPUT_URL") as [i|];
    destruct (load_dotenv dotenv environ !! py "OUTPUT_FILE") as [o|];
    reflexivity.
Qed.

(** C1, as the code has it.  A run of [scrape] that returns normally has
    opened a page and has invoked teardown exactly once, as the last thing
    it did.  A run that leaves [scrape] by an exception has not invoked
    teardown. *)
Theorem teardown_once_on_normal_exit (fuel : nat) st :
  exists evs,
    trace (scrape fuel st).1.2 = trace st.2 ++ evs /\
    match (scrape fuel st).2 with
    | Val _ =>
        is_Some (page (scrape fuel st).1.1) /\
        teardowns evs = 1%nat /\
        exists before, evs = before ++ teardown_calls /\ teardowns before = 0%nat
    | Exn _ => teardowns evs = 0%nat
    | Fuel => teardowns evs = 0%nat
    end.
Proof.
  destruct (scrape_run fuel st) as (_ & _ & evs & Ht & Hend).
  exists evs. split; [done|].
  destruct ((scrape fuel st).2) as [[]|e|].
  - destruct Hend as (Hpg & before & -> & Hq). split; [done|].
    pose proof (teardowns_none _ _ Hq) as Hnone.
    split; [|by eauto]. by rewrite teardowns_app, Hnone.
  - by eapply teardowns_none.
  - by eapply teardowns_none.
Qed.

(** C8.  The output file only grows at its end.  One extraction call adds
    the records of the page after the lines it finds, whatever they are,
    and a second call on the same page adds the same records again; the
    lines of every file before [process_page], before a run of [scrape]
    and before a run of [main] are a prefix of its lines afterwards. *)
Theorem output_store_is_append_only :
  (forall (page_content : list node) (lines : jsonl),
     let added := (process_content page_content []).1 in
     (process_content page_content lines).1 = lines ++ added /\
     (process_content page_content (lines ++ added)).1 = lines ++ added ++ added) /\
  (forall st path,
     read_lines (files st.2) path
       `prefix_of` read_lines (files (process_page st).1.2) path) /\
  (forall fuel st path,
     read_lines (files st.2) path
       `prefix_of` read_lines (files (scrape fuel st).1.2) path) /\
  (forall fuel dotenv environ w path,
     read_lines (files w) path
       `prefix_of` read_lines (files (main fuel dotenv environ w).1) path).
Proof.
  repeat split.
  - unfold process_content. by rewrite write_quotes_shift.
  - unfold process_content.
    rewrite (write_quotes_shift _ (lines ++ _)). cbn [fst]. by rewrite <- app_assoc.
  - intros st path. apply (browses_process_page st).
  - intros fuel st path. apply (scrape_run fuel st).
  - intros fuel dotenv environ w path. rewrite main_run.
    repeat case_match; try done.
    apply (scrape_run fuel (Scraper_init _ _ None, w)).
Qed.

(** C9.  A run launched through [main] never uses the proxy, whatever the
    environment holds: no call of the run parses proxy credentials or
    launches the browser with proxy settings, and when a scraper is made
    its [proxy_url] is [None] from the constructor to the end of the run. *)
Theorem entry_point_never_uses_proxy
    (fuel : nat) (dotenv environ : gmap pystr pystr) (w : world) :
  (exists evs,
     trace (main fuel dotenv environ w).1 = trace w ++ evs /\ Forall unproxied evs) /\
  (main fuel dotenv environ w
   = (print_to (missing_message (load_dotenv dotenv environ)) w, Val tt) \/
   exists i o,
     main fuel dotenv environ w = outcome (scrape fuel (Scraper_init i o None, w)) /\
     proxy_url (@Scraper_init B i o None) = None /\
     proxy_url (scrape fuel (Scraper_init i o None, w)).1.1 = None).
Proof.
  assert (forall i o,
            (exists evs,
               trace (outcome (scrape fuel (Scraper_init i o None, w))).1 = trace w ++ evs /\
               Forall unproxied evs) /\
            proxy_url (scrape fuel (Scraper_init i o None, w)).1.1 = None) as Hrun.
  { intros i o.
    destruct (scrape_run fuel (Scraper_init i o None, w)) as (_ & Hx & evs & Ht & Hend).
    split; [|exact Hx]. exists evs. split; [exact Ht|].
    assert (forall l, Forall (before_teardown false) l -> Forall unproxied l) as Hweak.
    { intros l Hl. eapply Forall_impl; [exact Hl|]. intros ev [_ Hev]. by apply Hev. }
    cbn [proxy_url Scraper_init fst truthy] in Hend.
    destruct ((scrape fuel (Scraper_init i o None, w)).2) as [[]|e|]; [|by auto..].
    destruct Hend as (_ & before & -> & Hq).
    apply Forall_app. split; [by auto|].
    unfold teardown_calls, unproxied. repeat (apply List.Forall_cons; [done|]).
    apply List.Forall_nil. }
  rewrite main_run.
  destruct (load_dotenv dotenv environ !! py "PROXY") as [p|];
    [destruct (load_dotenv dotenv environ !! py "INPUT_URL") as [i|];
       [destruct (load_dotenv dotenv environ !! py "OUTPUT_FILE") as [o|]|]|].
  - destruct (Hrun i o) as [Hev Hx]. split; [exact Hev|]. right. by exists i, o.
  - split; [|by left]. exists []. cbn. by rewrite app_nil_r.
  - split; [|by left]. exists []. cbn. by rewrite app_nil_r.
  - split; [|by left]. exists []. cbn. by rewrite app_nil_r.
Qed.

(** C2, as the code has it.  The run starts when the three variables
    [PROXY], [INPUT_URL] and [OUTPUT_FILE] are all set, with a scraper made
    from the last two.  When any of the three is not set, the proxy one
    included, [main] prints the names that are missing and returns: no
    call is made and no file is touched. *)
Theorem run_starts_only_with_all_three_set
    (fuel : nat) (dotenv environ : gmap pystr pystr) (w : world) :
  let env := load_dotenv dotenv environ in
  (forall p i o,
     env !! py "PROXY" = Some p ->
     env !! py "INPUT_URL" = Some i ->
     env !! py "OUTPUT_FILE" = Some o ->
     main fuel dotenv environ w = outcome (scrape fuel (Scraper_init i o None, w))) /\
  (env !! py "PROXY" = None \/
   env !! py "INPUT_URL" = None \/
   env !! py "OUTPUT_FILE" = None ->
   main fuel dotenv environ w = (print_to (missing_message env) w, Val tt)).
Proof.
  intros env. subst env. split.
  - intros p i o Hp Hi Ho. by rewrite main_run, Hp, Hi, Ho.
  - intros Hmissing. rewrite main_run.
    destruct Hmissing as [->|[Hm|Hm]]; [done|..];
      rewrite Hm; repeat case_match; done.
Qed.

End RunProperties.

(** ** Runs on the two-page site *)

Section OnTheSite.

Import Site.

(** The scenario of the specification: the first page has one record and
    a next link, the second has one record and no next link.  The run
    returns normally with both records in the file, in the order of
    arrival, and one teardown. *)
Example two_page_run :
  let r := scrape 5 (fresh (py "http://site/")) in
  r.2 = Val tt /\
  read_lines (files r.1.2) (py "out.jsonl")
  = [ record_of (py "It is our choices, Harry") (py "Dumbledore") [py "courage"];
      record_of (py "Hello world") (py "Nobody") [] ] /\
  input_url r.1.1 = py "http://site/page/2/" /\
  teardowns (trace r.1.2) = 1%nat.
Proof. vm_compute. repeat split. Qed.

(** A page on which no record container ever renders: the content wait
    raises, nothing is written, and the exception leaves [scrape] with the
    page open and no teardown. *)
Example blank_page_run :
  let r := scrape 5 (fresh (py "http://site/blank/")) in
  r.2 = Exn TimeoutError /\
  page r.1.1 = Some (py "http://site/blank/") /\
  read_lines (files r.1.2) (py "out.jsonl") = [] /\
  teardowns (trace r.1.2) = 0%nat.
Proof. vm_compute. repeat split. Qed.

(** C1, counterexample.  On the blank page the session starts, the content
    wait raises, and control is back at the caller with no teardown. *)
Lemma teardown_on_every_exit_fails : ~ teardown_on_every_exit.
Proof.
  intros Hclaim.
  destruct (Hclaim pystr unit two_pages_browser 5%nat (fresh (py "http://site/blank/")))
    as (evs & Ht & Hone).
  - reflexivity.
  - vm_compute. eauto.
  - vm_compute. discriminate.
  - vm_compute in Ht. subst evs. vm_compute in Hone. discriminate.
Qed.

(** With the two addresses set and no proxy variable, [main] prints the
    missing name and makes no call. *)
Example no_proxy_run :
  main 5 ∅ no_proxy_environ empty_world
  = (World ∅ [py "Missing environment variables: PROXY"] [] 0, Val tt).
Proof. vm_compute. reflexivity. Qed.

(** C2, counterexample.  The two addresses are set, the proxy variable is
    not, and what [main] does is not a run of [scrape]. *)
Lemma proxy_is_optional_fails : ~ proxy_is_optional.
Proof.
  intros Hclaim.
  pose proof (Hclaim pystr unit two_pages_browser 5%nat ∅ no_proxy_environ empty_world
                (py "http://site/") (py "out.jsonl") eq_refl eq_refl) as Hrun.
  apply (f_equal (fun r => trace r.1)) in Hrun.
  vm_compute in Hrun. discriminate.
Qed.


End OnTheSite.

(** ** Splitting and joining *)

Section SplitJoin.

Lemma split_nonempty (sep : N) (s : pystr) : split sep s <> [].
Proof.
  destruct s as [|c s]; cbn [split]; [done|].
  destruct (N.eqb c sep); [done|]. by destruct (split sep s).
Qed.

Lemma split_without (sep : N) (s : pystr) : sep ∉ s -> split sep s = [s].
Proof.
  induction s as [|c s IH]; [done|].
  intros [Hc Hs]%not_elem_of_cons. cbn [split].
  rewrite (proj2 (N.eqb_neq c sep)) by congruence.
  by rewrite (IH Hs).
Qed.

Lemma split_at (sep : N) (a b : pystr) :
  sep ∉ a -> split sep (a ++ sep :: b) = a :: split sep b.
Proof.
  induction a as [|c a IH]; cbn [app split].
  - intros _. by rewrite N.eqb_refl.
  - intros [Hc Ha]%not_elem_of_cons.
    rewrite (proj2 (N.eqb_neq c sep)) by congruence.
    by rewrite (IH Ha).
Qed.

Lemma split_length (sep : N) (s : pystr) :
  length (split sep s) = S (occurrences sep s).
Proof.
  unfold occurrences. induction s as [|c s IH]; [done|].
  cbn [split List.filter]. rewrite (N.eqb_sym sep c).
  destruct (N.eqb c sep); cbn [length]; [by rewrite IH|].
  destruct (split sep s) as [|h t] eqn:Hs; [by destruct (split_nonempty sep s)|].
  exact IH.
Qed.

Lemma join_split (sep : N) (s : pystr) : join [sep] (split sep s) = s.
Proof.
  induction s as [|c s IH]; [done|]. cbn [split].
  destruct (N.eqb_spec c sep) as [->|Hne].
  - destruct (split sep s) as [|h t] eqn:Hs; [by destruct (split_nonempty sep s)|].
    change (join [sep] ([] :: h :: t)) with (sep :: join [sep] (h :: t)).
    by rewrite IH.
  - destruct (split sep s) as [|h t] eqn:Hs; [by destruct (split_nonempty sep s)|].
    rewrite <- IH. by destruct t.
Qed.

Lemma split_pieces (sep : N) (s : pystr) :
  Forall (fun piece => (sep ∉ piece) /\ forall c, c ∈ piece -> c ∈ s) (split sep s).
Proof.
  induction s as [|c s IH]; cbn [split].
  - constructor; [|constructor]. split; [apply not_elem_of_nil|done].
  - assert (Forall (fun piece => (sep ∉ piece) /\ forall c', c' ∈ piece -> c' ∈ c :: s)
                   (split sep s)) as IH'.
    { eapply Forall_impl; [exact IH|]. intros piece [Hsep Hin].
      split; [done|]. intros c' Hc'. apply elem_of_cons. right. by apply Hin. }
    destruct (N.eqb_spec c sep) as [->|Hne].
    + constructor; [|exact IH']. split; [apply not_elem_of_nil|]. by intros c' ?%elem_of_nil.
    + destruct (split sep s) as [|h t] eqn:Hs; [by destruct (split_nonempty sep s)|].
      apply Forall_cons_1 in IH' as [[Hsep Hin] Ht].
      constructor; [|exact Ht]. split.
      * apply not_elem_of_cons. split; [congruence|done].
      * intros c' [->|Hc']%elem_of_cons; [apply elem_of_cons; by left|by apply Hin].
Qed.

(** A string that splits in two is its two pieces around the separator. *)
Lemma split_two (sep : N) (s a b : pystr) :
  split sep s = [a; b] ->
  s = a ++ sep :: b /\ (sep ∉ a) /\ (sep ∉ b) /\
  (forall c, c ∈ a -> c ∈ s) /\ (forall c, c ∈ b -> c ∈ s).
Proof.
  intros Hs. pose proof (join_split sep s) as Hjoin.
  pose proof (split_pieces sep s) as Hpieces. rewrite Hs in Hjoin, Hpieces.
  apply Forall_cons_1 in Hpieces as [[Ha Hina] Hpieces].
  apply Forall_cons_1 in Hpieces as [[Hb Hinb] _].
  cbn [join app] in Hjoin. by rewrite <- Hjoin at 1.
Qed.

End SplitJoin.

(** ** The proxy string (Scraper.process_proxy) *)

Section ProxyString.

Context {B H : Type} `{!Playwright B H}.

Implicit Types st : @state B.

Lemma split_pair (sep : N) (a b : pystr) :
  sep ∉ a -> sep ∉ b -> split sep (a ++ sep :: b) = [a; b].
Proof. intros Ha Hb. by rewrite split_at, split_without. Qed.

Lemma split_proxy_string (usr pwd srv prt : pystr) :
  plain usr -> plain pwd -> plain srv -> plain prt ->
  split 64 (proxy_string usr pwd srv prt) = [usr ++ 58%N :: pwd; srv ++ 58%N :: prt].
Proof.
  intros [Hu _] [Hp _] [Hs _] [Ht _]. unfold proxy_string.
  replace (usr ++ 58%N :: pwd ++ 64%N :: srv ++ 58%N :: prt)
    with ((usr ++ 58%N :: pwd) ++ 64%N :: srv ++ 58%N :: prt)
    by (by rewrite <- app_assoc).
  apply split_pair.
  - rewrite elem_of_app, elem_of_cons. intros [?|[?|?]]; done.
  - rewrite elem_of_app, elem_of_cons. intros [?|[?|?]]; done.
Qed.

(** The state after the call of [process_proxy] was recorded. *)
Lemma process_proxy_unfold st :
  process_proxy st =
  match proxy_url st.1 with
  | None => ((log CallProcessProxy st).1, Exn AttributeError)
  | Some u =>
      match split 64 u with
      | [username_password; server_port] =>
          match split 58 username_password with
          | [usr; pwd] =>
              match split 58 server_port with
              | [srv; prt] =>
                  ((set_endpoint srv prt (set_credentials usr pwd st.1),
                    (log CallProcessProxy st).1.2), Val tt)
              | _ => ((set_credentials usr pwd st.1, (log CallProcessProxy st).1.2),
                      Exn ValueError)
              end
          | _ => ((log CallProcessProxy st).1, Exn ValueError)
          end
      | _ => ((log CallProcessProxy st).1, Exn ValueError)
      end
  end.
Proof.
  unfold process_proxy. rewrite bind_run. cbn [log fst snd]. rewrite bind_run.
  cbn [get_self fst snd].
  destruct (proxy_url st.1) as [u|]; [|done].
  destruct (split 64 u) as [|up [|sp [|]]]; try done.
  destruct (split 58 up) as [|usr [|pwd [|]]]; try done.
  rewrite bind_run. cbn [modify_self fst snd].
  by destruct (split 58 sp) as [|srv [|prt [|]]].
Qed.

Lemma process_proxy_ok st (usr pwd srv prt : pystr) :
  proxy_url st.1 = Some (proxy_string usr pwd srv prt) ->
  plain usr -> plain pwd -> plain srv -> plain prt ->
  process_proxy st
  = ((set_endpoint srv prt (set_credentials usr pwd st.1),
      World (files st.2) (stdout st.2) (trace st.2 ++ [CallProcessProxy]) (rand st.2)),
     Val tt).
Proof.
  intros Hurl Hu Hp Hs Ht. rewrite process_proxy_unfold, Hurl.
  rewrite (split_proxy_string _ _ _ _ Hu Hp Hs Ht).
  rewrite (split_pair 58 usr pwd) by (apply Hu || apply Hp).
  rewrite (split_pair 58 srv prt) by (apply Hs || apply Ht).
  reflexivity.
Qed.

Lemma process_proxy_no_at st (u : pystr) :
  proxy_url st.1 = Some u ->
  occurrences 64 u <> 1%nat ->
  process_proxy st
  = ((st.1,
      World (files st.2) (stdout st.2) (trace st.2 ++ [CallProcessProxy]) (rand st.2)),
     Exn ValueError).
Proof.
  intros Hurl Hcount. rewrite process_proxy_unfold, Hurl.
  pose proof (split_length 64 u) as Hlen.
  destruct (split 64 u) as [|up [|sp [|]]]; try done.
  cbn in Hlen. lia.
Qed.

(** X1.  A proxy string [username:password@host:port] whose four parts
    hold neither [@] nor [:] is taken apart into exactly these parts:
    [process_proxy] returns, having stored the four of them. *)
Theorem process_proxy_stores_four_parts st (usr pwd srv prt : pystr) :
  proxy_url st.1 = Some (proxy_string usr pwd srv prt) ->
  plain usr -> plain pwd -> plain srv -> plain prt ->
  (process_proxy st).2 = Val tt /\
  username (process_proxy st).1.1 = Some usr /\
  password (process_proxy st).1.1 = Some pwd /\
  server (process_proxy st).1.1 = Some srv /\
  port (process_proxy st).1.1 = Some prt.
Proof.
  intros Hurl Hu Hp Hs Ht.
  by rewrite (process_proxy_ok st usr pwd srv prt Hurl Hu Hp Hs Ht).
Qed.

(** X2.  Whenever [process_proxy] returns, the proxy string was of the
    shape [username:password@host:port]: it is the four stored parts put
    together again, none of which holds [@] or [:]. *)
Theorem process_proxy_returns_only_on_shape st st' :
  process_proxy st = (st', Val tt) ->
  exists usr pwd srv prt,
    proxy_url st.1 = Some (proxy_string usr pwd srv prt) /\
    plain usr /\ plain pwd /\ plain srv /\ plain prt /\
    username st'.1 = Some usr /\ password st'.1 = Some pwd /\
    server st'.1 = Some srv /\ port st'.1 = Some prt.
Proof.
  rewrite process_proxy_unfold.
  destruct (proxy_url st.1) as [u|]; [|done].
  destruct (split 64 u) as [|up [|sp [|]]] eqn:Hat; try done.
  destruct (split 58 up) as [|usr [|pwd [|]]] eqn:Hcred; try done.
  destruct (split 58 sp) as [|srv [|prt [|]]] eqn:Hend; try done.
  intros [= <-].
  apply split_two in Hat as (-> & Hup & Hsp & _ & _).
  apply split_two in Hcred as (-> & Husr & Hpwd & Hin_usr & Hin_pwd).
  apply split_two in Hend as (-> & Hsrv & Hprt & Hin_srv & Hin_prt).
  exists usr, pwd, srv, prt. unfold plain, proxy_string. cbn.
  rewrite <- !app_assoc. cbn [app]. repeat split; try done.
  - intros ?; apply Hup; by apply Hin_usr.
  - intros ?; apply Hup; by apply Hin_pwd.
  - intros ?; apply Hsp; by apply Hin_srv.
  - intros ?; apply Hsp; by apply Hin_prt.
Qed.

(** X3.  A proxy string that does not hold exactly one [@] is refused:
    [process_proxy] raises [ValueError] and stores nothing. *)
Theorem process_proxy_refuses_without_one_at st (u : pystr) :
  proxy_url st.1 = Some u ->
  occurrences 64 u <> 1%nat ->
  (process_proxy st).2 = Exn ValueError /\
  (process_proxy st).1.1 = st.1.
Proof.
  intros Hurl Hcount. by rewrite (process_proxy_no_at st u Hurl Hcount).
Qed.

(** X4.  When the part before the [@] is a good [username:password] and
    the part after it does not hold exactly one [:], [process_proxy]
    raises [ValueError] with the user name and the password already
    stored, and the server and the port as they were. *)
Theorem process_proxy_stores_credentials_first st (usr pwd endpoint : pystr) :
  proxy_url st.1 = Some (usr ++ 58%N :: pwd ++ 64%N :: endpoint) ->
  plain usr -> plain pwd -> 64%N ∉ endpoint ->
  occurrences 58 endpoint <> 1%nat ->
  (process_proxy st).2 = Exn ValueError /\
  username (process_proxy st).1.1 = Some usr /\
  password (process_proxy st).1.1 = Some pwd /\
  server (process_proxy st).1.1 = server st.1 /\
  port (process_proxy st).1.1 = port st.1.
Proof.
  intros Hurl [Hu Hu'] [Hp Hp'] He Hcount. rewrite process_proxy_unfold, Hurl.
  replace (usr ++ 58%N :: pwd ++ 64%N :: endpoint)
    with ((usr ++ 58%N :: pwd) ++ 64%N :: endpoint)
    by (by rewrite <- app_assoc).
  rewrite split_pair, split_pair; try done.
  - pose proof (split_length 58 endpoint) as Hlen.
    destruct (split 58 endpoint) as [|srv [|prt [|]]]; try done.
    cbn in Hlen. lia.
  - rewrite elem_of_app, elem_of_cons. intros [?|[?|?]]; done.
Qed.

End ProxyString.

(** ** The session (Scraper.start_playwright, Scraper.stop_playwright) *)

Section Session.

Context {B H : Type} `{!Playwright B H}.

Implicit Types st : @state B.

Lemma random_choice_in_pool (n : nat) :
  nth (n mod length USER_AGENTS) USER_AGENTS [] ∈ USER_AGENTS.
Proof.
  apply list_elem_of_In, nth_In.
  apply Nat.mod_upper_bound. unfold USER_AGENTS. cbn [length]. lia.
Qed.

(** The three ways [start_playwright] can end. *)
Lemma start_playwright_cases st :
  let args := launch_args st.1 in
  let w1 := World (files st.2) (stdout st.2) (trace st.2 ++ [CallLaunch args]) (rand st.2) in
  (exists e,
     launch args = inl e /\
     start_playwright st = ((set_playwright true st.1, w1), Exn e)) \/
  (exists b user_agent,
     launch args = inr b /\ user_agent ∈ USER_AGENTS /\
     let w2 := World (files st.2) (stdout st.2)
                     (trace st.2 ++ [CallLaunch args; CallNewPage user_agent]) (rand st.2) in
     (exists e,
        new_page b user_agent = inl e /\
        start_playwright st
        = ((set_browser true (set_playwright true st.1), w2), Exn e)) \/
     (exists b',
        new_page b user_agent = inr b' /\
        start_playwright st
        = ((set_page (Some b') (set_browser true (set_playwright true st.1)), w2),
           Val tt))).
Proof.
  intros args w1. subst args w1. unfold start_playwright, launch_args.
  rewrite bind_run. cbn. rewrite bind_run. cbn. rewrite bind_run, call_run.
  match goal with |- context [launch ?a] => set (args := a) end.
  destruct (launch args) as [e|b]; cbn.
  { left. by exists e. }
  right. rewrite bind_run. cbn. rewrite bind_run. cbn. rewrite bind_run, call_run.
  match goal with |- context [CallNewPage ?u] => set (user_agent := u) end.
  exists b, user_agent. split; [done|]. split; [apply random_choice_in_pool|].
  destruct (new_page b user_agent) as [e|b']; cbn.
  - left. exists e. split; [done|]. by rewrite <- app_assoc.
  - right. exists b'. split; [done|]. by rewrite <- app_assoc.
Qed.

Lemma scrape_unfold (fuel : nat) st :
  scrape fuel st =
  match (if truthy (proxy_url st.1) then process_proxy else mret tt) st with
  | (st1, Val _) =>
      match start_playwright st1 with
      | (st2, Val _) =>
          match scrape_loop fuel st2 with
          | (st3, Val _) => stop_playwright st3
          | (st3, Exn e) => (st3, Exn e)
          | (st3, Fuel) => (st3, Fuel)
          end
      | (st2, Exn e) => (st2, Exn e)
      | (st2, Fuel) => (st2, Fuel)
      end
  | (st1, Exn e) => (st1, Exn e)
  | (st1, Fuel) => (st1, Fuel)
  end.
Proof.
  unfold scrape. rewrite bind_run. cbn [get_self fst snd]. rewrite bind_run.
  destruct ((if truthy (proxy_url st.1) then process_proxy else mret tt) st)
    as [st1 [[]|e|]]; [|done..].
  rewrite bind_run. destruct (start_playwright st1) as [st2 [[]|e|]]; [|done..].
  rewrite bind_run. by destruct (scrape_loop fuel st2) as [st3 [[]|e|]].
Qed.

(** The run after the proxy string was dealt with: the calls that open
    the session, the page calls of the loop, the calls of the teardown. *)
Lemma session_shape (fuel : nat) st1 :
  exists open turns closing,
    trace ((start_playwright ;; scrape_loop fuel ;; stop_playwright) st1).1.2
    = trace st1.2 ++ open ++ turns ++ closing /\
    ((exists e, open = [CallLaunch (launch_args st1.1)] /\ turns = [] /\ closing = [] /\
                launch (launch_args st1.1) = inl e) \/
     (exists user_agent,
        user_agent ∈ USER_AGENTS /\
        open = [CallLaunch (launch_args st1.1); CallNewPage user_agent] /\
        Forall page_call turns /\
        (closing = [] \/ closing = teardown_calls))).
Proof.
  rewrite bind_run.
  destruct (start_playwright_cases st1) as [(e & Hl & ->)|(b & ua & Hl & Hua & Hnew)].
  { exists [CallLaunch (launch_args st1.1)], [], []. split; [by rewrite !app_nil_r|].
    left. by exists e. }
  cbn zeta in Hnew. destruct Hnew as [(e & Hn & ->)|(b' & Hn & ->)].
  { exists [CallLaunch (launch_args st1.1); CallNewPage ua], [], [].
    split; [by rewrite !app_nil_r|]. right. exists ua. repeat split; try done. by left. }
  rewrite bind_run.
  match goal with |- context [scrape_loop fuel ?s] => set (st2 := s) end.
  destruct (browses_scrape_loop fuel st2) as ((turns & Ht & Hturns) & _ & _ & _ & Hb & Hw).
  exists [CallLaunch (launch_args st1.1); CallNewPage ua], turns.
  assert (trace st2.2 = trace st1.2 ++ [CallLaunch (launch_args st1.1); CallNewPage ua])
    as Ht2 by done.
  assert (browser st2.1 = true /\ playwright st2.1 = true) as [Hb2 Hw2] by done.
  clearbody st2.
  destruct (scrape_loop fuel st2) as [st3 [[]|e|]]; cbn [fst snd] in *.
  - exists teardown_calls. rewrite stop_playwright_run by congruence.
    cbn [fst snd trace]. rewrite Ht, Ht2. split; [by rewrite <- !app_assoc|].
    right. exists ua. repeat split; try done. by right.
  - exists []. rewrite Ht, Ht2, app_nil_r. split; [by rewrite <- !app_assoc|].
    right. exists ua. repeat split; try done. by left.
  - exists []. rewrite Ht, Ht2, app_nil_r. split; [by rewrite <- !app_assoc|].
    right. exists ua. repeat split; try done. by left.
Qed.

Lemma scrape_after_parse (fuel : nat) st st1 :
  (if truthy (proxy_url st.1) then process_proxy else mret tt) st = (st1, Val tt) ->
  scrape fuel st = (start_playwright ;; scrape_loop fuel ;; stop_playwright) st1.
Proof.
  intros Hparse. rewrite scrape_unfold, Hparse, bind_run.
  destruct (start_playwright st1) as [st2 [[]|e|]]; [|done..].
  by rewrite bind_run.
Qed.

End Session.

(** ** One run of [scrape], from the proxy string to the teardown *)

Section Protocol.

Context {B H : Type} `{!Playwright B H}.

Implicit Types st : @state B.

Lemma proxy_string_truthy (usr pwd srv prt : pystr) :
  truthy (Some (proxy_string usr pwd srv prt)) = true.
Proof. unfold proxy_string. by destruct usr. Qed.

(** X5.  A scraper made with a proxy string [username:password@host:port]
    (parts free of [@] and [:]) first parses the string and then launches
    the browser with the server [host:port] and these credentials. *)
Theorem scrape_launches_through_the_proxy (fuel : nat) st (usr pwd srv prt : pystr) :
  proxy_url st.1 = Some (proxy_string usr pwd srv prt) ->
  plain usr -> plain pwd -> plain srv -> plain prt ->
  exists evs,
    trace (scrape fuel st).1.2
    = trace st.2
      ++ CallProcessProxy
      :: CallLaunch (Some {| ps_server := srv ++ py ":" ++ prt;
                             ps_username := Some usr;
                             ps_password := Some pwd |})
      :: evs.
Proof.
  intros Hurl Hu Hp Hs Ht.
  pose proof (process_proxy_ok st usr pwd srv prt Hurl Hu Hp Hs Ht) as Hparse.
  set (st1 := (set_endpoint srv prt (set_credentials usr pwd st.1),
               World (files st.2) (stdout st.2) (trace st.2 ++ [CallProcessProxy])
                     (rand st.2)) : state) in *.
  assert ((if truthy (proxy_url st.1) then process_proxy else mret tt) st = (st1, Val tt))
    as Hif by (by rewrite Hurl, proxy_string_truthy).
  rewrite (scrape_after_parse fuel st st1 Hif).
  assert (launch_args st1.1
          = Some {| ps_server := srv ++ py ":" ++ prt;
                    ps_username := Some usr; ps_password := Some pwd |}) as Hargs.
  { unfold launch_args. subst st1. cbn [fst proxy_url set_endpoint set_credentials].
    by rewrite Hurl, proxy_string_truthy. }
  destruct (session_shape fuel st1) as (open & turns & closing & Htrace & Hshape).
  rewrite Htrace, Hargs in *. subst st1. cbn [snd trace].
  destruct Hshape as [(e & -> & _)|(ua & _ & -> & _)];
    rewrite <- !app_assoc; cbn [app]; eauto.
Qed.

(** X6.  A scraper made with a non-empty proxy string that does not hold
    exactly one [@] raises [ValueError] from [scrape] before it launches
    anything: the only call made is the parsing, and no file is touched. *)
Theorem scrape_stops_on_a_bad_proxy_string (fuel : nat) st (u : pystr) :
  proxy_url st.1 = Some u ->
  u <> [] ->
  occurrences 64 u <> 1%nat ->
  scrape fuel st
  = ((st.1,
      World (files st.2) (stdout st.2) (trace st.2 ++ [CallProcessProxy]) (rand st.2)),
     Exn ValueError).
Proof.
  intros Hurl Hne Hcount. rewrite scrape_unfold, Hurl.
  assert (truthy (Some u) = true) as -> by (by destruct u).
  by rewrite (process_proxy_no_at st u Hurl Hcount).
Qed.

(** X7.  The empty proxy string counts as no proxy: the run neither
    parses it nor launches the browser with proxy settings. *)
Theorem empty_proxy_string_means_no_proxy (fuel : nat) st :
  proxy_url st.1 = Some [] ->
  exists evs,
    trace (scrape fuel st).1.2 = trace st.2 ++ evs /\ Forall unproxied evs.
Proof.
  intros Hurl.
  destruct (scrape_run fuel st) as (_ & _ & evs & Ht & Hend).
  exists evs. split; [exact Ht|].
  rewrite Hurl in Hend. cbn [truthy] in Hend.
  assert (forall l, Forall (before_teardown false) l -> Forall unproxied l) as Hweak.
  { intros l Hl. eapply Forall_impl; [exact Hl|]. intros ev [_ Hev]. by apply Hev. }
  destruct ((scrape fuel st).2) as [[]|e|]; [|by auto..].
  destruct Hend as (_ & before & -> & Hq).
  apply Forall_app. split; [by auto|].
  unfold teardown_calls, unproxied. repeat (apply List.Forall_cons; [done|]).
  apply List.Forall_nil.
Qed.

(** X8.  The calls of any run of [scrape] come in three stretches: the
    calls that set the session up (at most one parsing of the proxy
    string, one launch, one page opened with a user agent of the pool),
    then page calls only, then nothing or the calls of one teardown.  No
    call on the page and no teardown comes before a page was opened. *)
Theorem scrape_follows_the_protocol (fuel : nat) st :
  exists setup turns closing,
    trace (scrape fuel st).1.2 = trace st.2 ++ setup ++ turns ++ closing /\
    setup_calls setup /\
    Forall page_call turns /\
    (closing = [] \/ closing = teardown_calls) /\
    (turns <> [] \/ closing <> [] ->
     exists parse args user_agent,
       setup = parse ++ [CallLaunch args; CallNewPage user_agent]).
Proof.
  assert (forall parse st1,
            (parse = [] \/ parse = [CallProcessProxy]) ->
            trace st1.2 = trace st.2 ++ parse ->
            scrape fuel st = (start_playwright ;; scrape_loop fuel ;; stop_playwright) st1 ->
            exists setup turns closing,
              trace (scrape fuel st).1.2 = trace st.2 ++ setup ++ turns ++ closing /\
              setup_calls setup /\
              Forall page_call turns /\
              (closing = [] \/ closing = teardown_calls) /\
              (turns <> [] \/ closing <> [] ->
               exists parse args user_agent,
                 setup = parse ++ [CallLaunch args; CallNewPage user_agent])) as Hsession.
  { intros parse st1 Hparse Ht1 ->.
    destruct (session_shape fuel st1) as (open & turns & closing & Htrace & Hshape).
    exists (parse ++ open), turns, closing. rewrite Htrace, Ht1, <- !app_assoc.
    split; [done|].
    destruct Hshape as [(e & -> & -> & -> & _)|(ua & Hua & -> & Hturns & Hclosing)].
    - repeat split; try done; [|by left|by intros [|]].
      exists parse, [CallLaunch (launch_args st1.1)]. eauto 10.
    - repeat split; try done; [|by eauto].
      exists parse, [CallLaunch (launch_args st1.1); CallNewPage ua]. eauto 10. }
  destruct (truthy (proxy_url st.1)) eqn:Hproxy.
  - destruct (process_proxy_run st) as (s' & r & Hrun & _).
    destruct r as [[]|e|].
    + eapply (Hsession [CallProcessProxy]); [by right| |].
      2:{ apply scrape_after_parse. rewrite Hproxy. exact Hrun. }
      reflexivity.
    + rewrite scrape_unfold, Hproxy, Hrun. cbn [fst snd trace].
      exists [CallProcessProxy], [], [].
      split; [by rewrite !app_nil_r|].
      split; [exists [CallProcessProxy], []; by eauto|].
      split; [constructor|]. split; [by left|]. by intros [|].
    + rewrite scrape_unfold, Hproxy, Hrun. cbn [fst snd trace].
      exists [CallProcessProxy], [], [].
      split; [by rewrite !app_nil_r|].
      split; [exists [CallProcessProxy], []; by eauto|].
      split; [constructor|]. split; [by left|]. by intros [|].
  - apply (Hsession [] st (or_introl eq_refl)); [by rewrite app_nil_r|].
    apply scrape_after_parse. by rewrite Hproxy.
Qed.

End Protocol.

(** ** The turns of the loop *)

Section Turns.

Context {B H : Type} `{!Playwright B H}.

Implicit Types st : @state B.

Lemma wait_for_quotes_run st (b : B) (timeout : Z) :
  page st.1 = Some b ->
  wait_for_quotes timeout st
  = match wait_for_selector b (py "div.quote") timeout with
    | inl e =>
        ((st.1, World (files st.2) (stdout st.2)
                      (trace st.2 ++ [CallWaitForSelector (py "div.quote") timeout])
                      (rand st.2)), Exn e)
    | inr (b', _) =>
        ((set_page (Some b') st.1,
          World (files st.2) (stdout st.2)
                (trace st.2 ++ [CallWaitForSelector (py "div.quote") timeout])
                (rand st.2)), Val tt)
    end.
Proof.
  intros Hb. unfold wait_for_quotes.
  rewrite bind_run, (the_page_run _ _ Hb), bind_run, call_run.
  by destruct (wait_for_selector b (py "div.quote") timeout) as [e|[b' h]].
Qed.

Lemma process_page_run st (b : B) :
  page st.1 = Some b ->
  process_page st
  = match content b with
    | inl e =>
        ((st.1, World (files st.2) (stdout st.2) (trace st.2 ++ [CallContent]) (rand st.2)),
         Exn e)
    | inr page_content =>
        let out := write_quotes (quotes_of page_content)
                                (read_lines (files st.2) (output_file st.1)) in
        ((st.1, World (<[output_file st.1 := out.1]> (files st.2)) (stdout st.2)
                      (trace st.2 ++ [CallContent]) (rand st.2)),
         out.2)
    end.
Proof.
  intros Hb. unfold process_page.
  rewrite bind_run, (the_page_run _ _ Hb), bind_run, call_run.
  destruct (content b) as [e|page_content]; [done|].
  cbn [log fst snd]. rewrite bind_run. cbn [get_self fst snd].
  unfold append_to. cbn [fst snd files stdout trace rand].
  by destruct (write_quotes _ _).
Qed.

(** A turn up to the extraction, step by step. *)
Lemma load_and_extract_run st (b : B) :
  page st.1 = Some b ->
  load_and_extract st
  = let u := input_url st.1 in
    let out := output_file st.1 in
    match goto b u with
    | inl e =>
        ((st.1, World (files st.2) (stdout st.2) (trace st.2 ++ [CallGoto u]) (rand st.2)),
         Exn e)
    | inr b1 =>
        let printed := stdout st.2 ++ [py "Scraping:  " ++ u] in
        match wait_for_selector b1 (py "div.quote") 100000 with
        | inl e =>
            ((set_page (Some b1) st.1,
              World (files st.2) printed
                    (trace st.2 ++ [CallGoto u; CallWaitForSelector (py "div.quote") 100000])
                    (rand st.2)), Exn e)
        | inr (b2, _) =>
            let calls := trace st.2 ++ [CallGoto u;
                                        CallWaitForSelector (py "div.quote") 100000;
                                        CallContent] in
            match content b2 with
            | inl e =>
                ((set_page (Some b2) (set_page (Some b1) st.1),
                  World (files st.2) printed calls (rand st.2)), Exn e)
            | inr page_content =>
                let written := write_quotes (quotes_of page_content)
                                            (read_lines (files st.2) out) in
                ((set_page (Some b2) (set_page (Some b1) st.1),
                  World (<[out := written.1]> (files st.2)) printed calls (rand st.2)),
                 written.2)
            end
        end
    end.
Proof.
  intros Hb. unfold load_and_extract.
  rewrite bind_run, (the_page_run _ _ Hb), bind_run. cbn [get_self fst snd].
  rewrite bind_run, call_run.
  destruct (goto b (input_url st.1)) as [e|b1]; [done|].
  cbn [log fst snd]. rewrite bind_run. cbn [modify_self fst snd].
  rewrite bind_run. cbn [print fst snd files stdout trace rand].
  rewrite bind_run, (wait_for_quotes_run _ b1) by done.
  cbn [fst snd set_page page files stdout trace rand].
  destruct (wait_for_selector b1 (py "div.quote") 100000) as [e|[b2 h]].
  { cbn zeta. by rewrite <- app_assoc. }
  rewrite (process_page_run _ b2) by done.
  cbn [fst snd set_page page output_file files stdout trace rand].
  destruct (content b2) as [e|page_content]; cbn zeta; by rewrite <- !app_assoc.
Qed.

Lemma loop_body_unfold st :
  loop_body st
  = match load_and_extract st with
    | (st', Val _) => paginate st'
    | (st', Exn e) => (st', Exn e)
    | (st', Fuel) => (st', Fuel)
    end.
Proof. unfold loop_body. by rewrite bind_run. Qed.

Lemma scrape_loop_unfold (fuel : nat) st :
  scrape_loop (S fuel) st
  = match loop_body st with
    | (st', Val true) => scrape_loop fuel st'
    | (st', Val false) => (st', Val tt)
    | (st', Exn e) => (st', Exn e)
    | (st', Fuel) => (st', Fuel)
    end.
Proof.
  cbn [scrape_loop]. rewrite bind_run.
  by destruct (loop_body st) as [st' [[|]|e|]].
Qed.

End Turns.

(** ** What the loop gathers, and how it fails *)

Section Gathering.

Context {B H : Type} `{!Playwright B H}.

Implicit Types st : @state B.



Lemma paginate_unfold st (b : B) :
  page st.1 = Some b ->
  paginate st
  = let waited := World (files st.2) (stdout st.2)
                        (trace st.2 ++ [CallWaitForSelector (py "li.next a") 1000])
                        (rand st.2) in
    match wait_for_selector b (py "li.next a") 1000 with
    | inl TimeoutError => ((st.1, waited), Val false)
    | inl e => ((st.1, waited), Exn e)
    | inr (b', next_button) =>
        let clicked := World (files st.2) (stdout st.2)
                             (trace st.2 ++ [CallWaitForSelector (py "li.next a") 1000;
                                             CallClick])
                             (rand st.2) in
        match click b' next_button with
        | inl e => ((set_page (Some b') st.1, clicked), Exn e)
        | inr b'' =>
            ((set_input_url (url b'') (set_page (Some b'') (set_page (Some b') st.1)),
              clicked), Val true)
        end
    end.
Proof.
  intros Hb. cbn zeta.
  destruct (wait_for_selector b (py "li.next a") 1000) as [e|[b' next_button]] eqn:Hwait.
  - unfold paginate.
    rewrite bind_run, (the_page_run _ _ Hb). rewrite bind_run. cbn [log fst snd].
    rewrite Hwait. by destruct e.
  - destruct (click b' next_button) as [e|b''] eqn:Hclick.
    + unfold paginate.
      rewrite bind_run, (the_page_run _ _ Hb). rewrite bind_run. cbn [log fst snd].
      rewrite Hwait. rewrite bind_run. cbn [modify_self fst snd].
      rewrite bind_run, call_run, Hclick. cbn [log fst snd trace files stdout rand].
      by rewrite <- app_assoc.
    + apply (paginate_next _ _ _ _ _ Hb Hwait Hclick).
Qed.




(** X11.  Of the pagination step only a [TimeoutError] of the wait for the
    next link is caught.  Any other exception of that wait, and any
    exception of the click that follows a successful wait (a
    [TimeoutError] too), leaves the loop as it is, with the target and the
    files of that moment. *)
Theorem pagination_errors_leave_the_loop
    (fuel : nat) st0 st (b : B) (e : exn) :
  load_and_extract st0 = (st, Val tt) ->
  page st.1 = Some b ->
  (wait_for_selector b (py "li.next a") 1000 = inl e /\ e <> TimeoutError) \/
  (exists b' next_button,
     wait_for_selector b (py "li.next a") 1000 = inr (b', next_button) /\
     click b' next_button = inl e) ->
  (scrape_loop (S fuel) st0).2 = Exn e /\
  input_url (scrape_loop (S fuel) st0).1.1 = input_url st.1 /\
  files (scrape_loop (S fuel) st0).1.2 = files st.2.
Proof.
  intros Hload Hb Hfail.
  rewrite scrape_loop_unfold, loop_body_unfold, Hload, (paginate_unfold st b Hb).
  cbn zeta.
  destruct Hfail as [[-> Hne]|(b' & next_button & -> & ->)]; [|done].
  by destruct e.
Qed.

(** X12.  A turn that fails at the navigation or at the wait for the
    record containers leaves the loop by that exception with every file
    as it was: the output file is not written, and not created either. *)
Theorem early_failure_writes_nothing (fuel : nat) st (b : B) (e : exn) :
  page st.1 = Some b ->
  goto b (input_url st.1) = inl e \/
  (exists b1,
     goto b (input_url st.1) = inr b1 /\
     wait_for_selector b1 (py "div.quote") 100000 = inl e) ->
  (scrape_loop (S fuel) st).2 = Exn e /\
  files (scrape_loop (S fuel) st).1.2 = files st.2.
Proof.
  intros Hb Hfail.
  rewrite scrape_loop_unfold, loop_body_unfold, (load_and_extract_run st b Hb).
  cbn zeta. by destruct Hfail as [->|(b1 & -> & ->)].
Qed.


End Gathering.

(** ** The lines of the output file, and the script *)

Section LinesAndScript.

Context {B H : Type} `{!Playwright B H}.

Implicit Types st : @state B.

Lemma write_quotes_schema (quotes : list node) :
  forall lines,
    exists recs,
      (write_quotes quotes lines).1 = lines ++ recs /\
      Forall (fun d => keys d = [py "text"; py "by"; py "tags"] /\
                       exists t a tags, d = record_of t a tags) recs.
Proof.
  induction quotes as [|q quotes IH]; intros lines; cbn [write_quotes].
  - exists []. split; [by rewrite app_nil_r|constructor].
  - destruct (quote_dict q) as [e|d] eqn:Hq.
    + exists []. split; [by rewrite app_nil_r|constructor].
    + destruct (IH (lines ++ [d])) as (recs & -> & Hrecs).
      exists (d :: recs). split; [by rewrite <- app_assoc|].
      constructor; [|done].
      apply quote_dict_inr in Hq as (span & small & container & _ & _ & _ & ->).
      split; [reflexivity|]. eauto.
Qed.

(** X14.  Whatever the page holds and however the extraction ends, every
    line it adds to the file is a dictionary with exactly the keys [text],
    [by] and [tags], in this order, holding a string, a string and a list
    of strings. *)
Theorem every_written_line_has_the_three_keys
    (page_content : list node) (lines : jsonl) :
  exists recs,
    (process_content page_content lines).1 = lines ++ recs /\
    Forall (fun d => keys d = [py "text"; py "by"; py "tags"] /\
                     exists t a tags, d = record_of t a tags) recs.
Proof. apply write_quotes_schema. Qed.

Lemma lookup_with_proxy (dotenv environ : gmap pystr pystr) (p : pystr) (var : pystr) :
  load_dotenv dotenv (<[py "PROXY" := p]> environ) !! var
  = if decide (py "PROXY" = var) then Some p else load_dotenv dotenv environ !! var.
Proof.
  unfold load_dotenv. rewrite !lookup_union, lookup_insert.
  case_decide; [|done]. by destruct (dotenv !! var).
Qed.

(** X15.  The value of [PROXY] has no influence on a run: two environments
    that differ in nothing but the value that [PROXY] is set to make
    [main] do the same. *)
Theorem main_ignores_the_proxy_value
    (fuel : nat) (dotenv environ : gmap pystr pystr) (w : world) (p p' : pystr) :
  main fuel dotenv (<[py "PROXY" := p]> environ) w
  = main fuel dotenv (<[py "PROXY" := p']> environ) w.
Proof.
  rewrite !main_run. unfold missing_message, env_vars. cbn [List.filter].
  rewrite !lookup_with_proxy.
  rewrite decide_True by done.
  rewrite !(decide_False (P := py "PROXY" = py "INPUT_URL")) by done.
  rewrite !(decide_False (P := py "PROXY" = py "OUTPUT_FILE")) by done.
  reflexivity.
Qed.


End LinesAndScript.

(** ** The further properties on concrete runs *)

Section FurtherRuns.

Import Site Fixtures.

Ltac plain_part := split; apply (bool_decide_unpack _); vm_compute; exact I.

(** The proxy string [user:pass@host:8080]. *)
Example proxy_string_example :
  proxy_string (py "user") (py "pass") (py "host") (py "8080") = py "user:pass@host:8080".
Proof. reflexivity. Qed.

Lemma process_proxy_stores_four_parts_witness :
  let st := proxied (py "user:pass@host:8080") in
  (process_proxy st).2 = Val tt /\
  username (process_proxy st).1.1 = Some (py "user") /\
  password (process_proxy st).1.1 = Some (py "pass") /\
  server (process_proxy st).1.1 = Some (py "host") /\
  port (process_proxy st).1.1 = Some (py "8080").
Proof.
  intros st.
  apply (process_proxy_stores_four_parts st (py "user") (py "pass") (py "host") (py "8080")).
  - reflexivity.
  - plain_part.
  - plain_part.
  - plain_part.
  - plain_part.
Defined.

Lemma process_proxy_returns_only_on_shape_witness :
  let st := proxied (py "user:pass@host:8080") in
  exists usr pwd srv prt,
    proxy_url st.1 = Some (proxy_string usr pwd srv prt) /\
    plain usr /\ plain pwd /\ plain srv /\ plain prt /\
    username (process_proxy st).1.1 = Some usr /\
    password (process_proxy st).1.1 = Some pwd /\
    server (process_proxy st).1.1 = Some srv /\
    port (process_proxy st).1.1 = Some prt.
Proof.
  intros st.
  apply (process_proxy_returns_only_on_shape st (process_proxy st).1).
  vm_compute. reflexivity.
Defined.

(** A proxy address written with its scheme holds no [@]. *)
Lemma process_proxy_refuses_without_one_at_witness :
  let st := proxied (py "http://host:8080") in
  (process_proxy st).2 = Exn ValueError /\
  (process_proxy st).1.1 = st.1.
Proof.
  intros st.
  apply (process_proxy_refuses_without_one_at st (py "http://host:8080")).
  - reflexivity.
  - vm_compute. lia.
Defined.

(** A proxy string whose host comes without a port. *)
Lemma process_proxy_stores_credentials_first_witness :
  let st := proxied (py "user:pass@host") in
  (process_proxy st).2 = Exn ValueError /\
  username (process_proxy st).1.1 = Some (py "user") /\
  password (process_proxy st).1.1 = Some (py "pass") /\
  server (process_proxy st).1.1 = server st.1 /\
  port (process_proxy st).1.1 = port st.1.
Proof.
  intros st.
  apply (process_proxy_stores_credentials_first st (py "user") (py "pass") (py "host")).
  - reflexivity.
  - plain_part.
  - plain_part.
  - apply (bool_decide_unpack _). vm_compute. exact I.
  - vm_compute. lia.
Defined.

Lemma scrape_launches_through_the_proxy_witness :
  let st := proxied (py "user:pass@host:8080") in
  exists evs,
    trace (scrape 5 st).1.2
    = trace st.2
      ++ CallProcessProxy
      :: CallLaunch (Some {| ps_server := py "host" ++ py ":" ++ py "8080";
                             ps_username := Some (py "user");
                             ps_password := Some (py "pass") |})
      :: evs.
Proof.
  intros st.
  apply (scrape_launches_through_the_proxy 5 st
           (py "user") (py "pass") (py "host") (py "8080")).
  - reflexivity.
  - plain_part.
  - plain_part.
  - plain_part.
  - plain_part.
Defined.

Lemma scrape_stops_on_a_bad_proxy_string_witness :
  let st := proxied (py "http://host:8080") in
  scrape 5 st
  = ((st.1,
      World (files st.2) (stdout st.2) (trace st.2 ++ [CallProcessProxy]) (rand st.2)),
     Exn ValueError).
Proof.
  intros st.
  apply (scrape_stops_on_a_bad_proxy_string 5 st (py "http://host:8080")).
  - reflexivity.
  - vm_compute. discriminate.
  - vm_compute. lia.
Defined.

Lemma empty_proxy_string_means_no_proxy_witness :
  let st := proxied [] in
  exists evs,
    trace (scrape 5 st).1.2 = trace st.2 ++ evs /\ Forall unproxied evs.
Proof.
  intros st.
  apply (empty_proxy_string_means_no_proxy 5 st).
  reflexivity.
Defined.




Lemma pagination_errors_leave_the_loop_witness :
  let st0 := started (py "http://site/") in
  let st := (@load_and_extract pystr unit stale_browser st0).1 in
  (@scrape_loop pystr unit stale_browser 3 st0).2 = Exn TimeoutError /\
  input_url (@scrape_loop pystr unit stale_browser 3 st0).1.1 = input_url st.1 /\
  files (@scrape_loop pystr unit stale_browser 3 st0).1.2 = files st.2.
Proof.
  intros st0 st.
  apply (@pagination_errors_leave_the_loop pystr unit stale_browser 2 st0 st
           (py "http://site/") TimeoutError).
  - vm_compute. reflexivity.
  - vm_compute. reflexivity.
  - right. exists (py "http://site/"), tt. split; vm_compute; reflexivity.
Defined.

Lemma early_failure_writes_nothing_witness :
  let st := started (py "http://site/blank/") in
  (scrape_loop 3 st).2 = Exn TimeoutError /\
  files (scrape_loop 3 st).1.2 = files st.2.
Proof.
  intros st.
  apply (early_failure_writes_nothing 2 st (py "about:blank") TimeoutError).
  - reflexivity.
  - right. exists (py "http://site/blank/"). split; vm_compute; reflexivity.
Defined.


End FurtherRuns.
